(** * API documentation generator (scripts/apidoc.ts)

    A shallow embedding of the documentation pipeline of [scripts/apidoc.ts]
    and the properties its specification states about it.

    The script exists in two variants: one pre-renders comment text through
    the markdown renderer and emits a companion [.ts] data file per module,
    the other embeds the serialized method list in the markdown page.  Both
    are embedded here, selected by a [Variant].

    Strings are sequences of code units, written as [string].  Case mapping,
    the class [[A-Z]] and white space are modelled on the ASCII range, which
    is where identifiers of the documented library live.

    The collaborators of the script (the introspection engine, the markdown
    renderer, the code formatter, [JSON.stringify], the documented library
    itself, locale-aware comparison, path resolution) are not part of it:
    they are the fields of the record [Externals]. *)

From Stdlib Require Import String Ascii List Bool Arith ZArith Lia.
From Stdlib Require Import Sorting.Sorted Sorting.Permutation.
Import ListNotations.

Local Open Scope list_scope.
Local Open Scope string_scope.

(** ** Code units and the string primitives the script calls *)

Definition nl : string := String (ascii_of_nat 10) EmptyString.
Definition dq : string := String (ascii_of_nat 34) EmptyString.
Definition space : ascii := ascii_of_nat 32.

Definition isUpper (c : ascii) : bool :=
  ((65 <=? nat_of_ascii c) && (nat_of_ascii c <=? 90))%nat.

Definition isLower (c : ascii) : bool :=
  ((97 <=? nat_of_ascii c) && (nat_of_ascii c <=? 122))%nat.

Definition isSpace (c : ascii) : bool := (nat_of_ascii c =? 32)%nat.

Definition isNewline (c : ascii) : bool := (nat_of_ascii c =? 10)%nat.

(** White space and line terminators removed by [trim]: TAB, LF, VT, FF, CR
    and SP.  These are the ASCII ones; [trim] of the language removes the
    other Unicode white space too. *)
Definition isWhiteSpace (c : ascii) : bool :=
  (((9 <=? nat_of_ascii c) && (nat_of_ascii c <=? 13)) || (nat_of_ascii c =? 32))%nat.

(** Case mapping of one code unit.  It is the one of [toUpperCase] and
    [toLowerCase] on ASCII code units; outside ASCII the case mapping of the
    language differs (and can change the number of code units), so the
    properties that depend on it are stated for ASCII input. *)
Definition toUpperCaseChar (c : ascii) : ascii :=
  if isLower c then ascii_of_nat (nat_of_ascii c - 32) else c.

Definition toLowerCaseChar (c : ascii) : ascii :=
  if isUpper c then ascii_of_nat (nat_of_ascii c + 32) else c.

Fixpoint mapString (f : ascii -> ascii) (s : string) : string :=
  match s with
  | EmptyString => EmptyString
  | String c r => String (f c) (mapString f r)
  end.

Definition toUpperCase : string -> string := mapString toUpperCaseChar.
Definition toLowerCase : string -> string := mapString toLowerCaseChar.

(** [s.substring(n)] *)
Fixpoint substringFrom (n : nat) (s : string) : string :=
  match n, s with
  | O, _ => s
  | S k, EmptyString => EmptyString
  | S k, String _ r => substringFrom k r
  end.

Definition isEmpty (s : string) : bool :=
  match s with EmptyString => true | String _ _ => false end.

Fixpoint trimStart (s : string) : string :=
  match s with
  | EmptyString => EmptyString
  | String c r => if isWhiteSpace c then trimStart r else s
  end.

Fixpoint trimEnd (s : string) : string :=
  match s with
  | EmptyString => EmptyString
  | String c r =>
      let r' := trimEnd r in
      if isEmpty r' && isWhiteSpace c then EmptyString else String c r'
  end.

Definition trim (s : string) : string := trimEnd (trimStart s).

(** [parts.join(sep)] *)
Fixpoint join (sep : string) (parts : list string) : string :=
  match parts with
  | [] => EmptyString
  | [p] => p
  | p :: rest => p ++ sep ++ join sep rest
  end.

(** [a || b] on strings that may be undefined: the right operand replaces an
    undefined or empty left operand. *)
Definition orElse (a : option string) (b : string) : string :=
  match a with
  | Some (String c r) => String c r
  | _ => b
  end.

(** Truthiness of a string that may be undefined. *)
Definition truthy (a : option string) : bool :=
  match a with
  | Some (String _ _) => true
  | _ => false
  end.

(** ** [String.prototype.replace]

    A pattern is given by its matcher: [m s] is the length of the match that
    starts at the head of [s], if there is one.  The scan goes left to right;
    [skip] counts the code units of the current match still to be passed
    over.  With the flag [g] the scan resumes after each match, without it
    the rest of the string follows the first match unchanged. *)

Definition Matcher := string -> option nat.

Fixpoint replaceScan (m : Matcher) (repl : string -> string) (g : bool)
    (skip : nat) (s : string) : string :=
  match s with
  | EmptyString => EmptyString
  | String c r =>
      match skip with
      | S k => replaceScan m repl g k r
      | O =>
          match m s with
          | Some (S k) =>
              repl (substring 0 (S k) s)
              ++ (if g then replaceScan m repl g k r else substringFrom k r)
          | _ => String c (replaceScan m repl g 0 r)
          end
      end
  end.

Definition replace (m : Matcher) (repl : string -> string) (g : bool)
    (s : string) : string :=
  replaceScan m repl g 0 s.

(** Length of the longest prefix whose code units satisfy [p]. *)
Fixpoint spanLength (p : ascii -> bool) (s : string) : nat :=
  match s with
  | EmptyString => 0
  | String c r => if p c then S (spanLength p r) else 0
  end.

(** [/([A-Z]+)/] *)
Definition upperRun : Matcher := fun s =>
  match spanLength isUpper s with
  | O => None
  | n => Some n
  end.

(** [/\n +/] *)
Definition newlineSpaces : Matcher := fun s =>
  match s with
  | String c r =>
      if isNewline c then
        match spanLength isSpace r with
        | O => None
        | n => Some (S n)
        end
      else None
  | EmptyString => None
  end.

(** The string pattern ['_']. *)
Definition underscore : Matcher := fun s =>
  match s with
  | String c _ => if (nat_of_ascii c =? 95)%nat then Some 1 else None
  | EmptyString => None
  end.

(** ** The reflection tree, as far as the script reads it *)

Record CommentTag := {
  tagName : string;
  tagText : string
}.

Record Comment := {
  shortText : string;
  text : string;
  tags : list CommentTag
}.

Record TypeParameterReflection := {
  tpName : string;
  tpComment : option Comment
}.

(** [pType] and [sigType] hold the result of [type.toString()]. *)
Record ParameterReflection := {
  pName : string;
  pType : string;
  defaultValue : option string;
  pComment : option Comment
}.

Record SignatureReflection := {
  typeParameters : option (list TypeParameterReflection);
  parameters : option (list ParameterReflection);
  sigType : string;
  sigComment : option Comment
}.

Record MethodReflection := {
  methodDeclName : string;
  signatures : list SignatureReflection
}.

(** A class directly under the root namespace; [moduleMethods] is
    [module.getChildrenByKind(ReflectionKind.Method)]. *)
Record ModuleReflection := {
  moduleDeclName : string;
  moduleComment : option Comment;
  moduleMethods : list MethodReflection
}.

(** [namespaces] is [project.getChildrenByKind(ReflectionKind.Namespace)],
    each namespace given by its children of kind [Class]. *)
Record ProjectReflection := {
  namespaces : list (list ModuleReflection)
}.

(** ** The records the script builds *)

Record MethodParameter := {
  mpName : string;
  mpType : option string;
  mpDefault : option string;
  mpDescription : string
}.

Record Method := {
  name : string;
  description : string;
  methodParameters : list MethodParameter;
  returns : string;
  examples : string
}.

Record Page := {
  pageText : string;
  pageLink : string
}.

(** ** [toBlock] *)

Definition toBlock (comment : option Comment) : string :=
  orElse (option_map (fun c => trim (shortText c)) comment) "Missing"
  ++ (if truthy (option_map text comment)
      then match comment with
           | Some c => nl ++ nl ++ text c
           | None => EmptyString
           end
      else EmptyString).

(** ** Names *)

(** [methodName.substring(0, 1).toUpperCase() +
     methodName.substring(1).replace(/([A-Z]+)/g, ' $1')] *)
Definition prettyMethodName (methodName : string) : string :=
  toUpperCase (substring 0 1 methodName)
  ++ replace upperRun (fun m => " " ++ m) true (substringFrom 1 methodName).

(** [module.name.replace('_', '')] *)
Definition moduleName (module : ModuleReflection) : string :=
  replace underscore (fun _ => EmptyString) false (moduleDeclName module).

Definition lowerModuleName (moduleName : string) : string :=
  toLowerCase (substring 0 1 moduleName) ++ substringFrom 1 moduleName.

(** ** The synthesized example

    [if (example.length > 50) example = example.substring(0, 47) + '...'] *)
Definition example (serialized : string) : string :=
  if (50 <? String.length serialized)%nat
  then substring 0 47 serialized ++ "..."
  else serialized.

(** The two [examples += ...] of the [try] block. *)
Definition exampleCall (lowerModuleName methodName example : string) : string :=
  "faker." ++ lowerModuleName ++ "." ++ methodName ++ "()"
  ++ (if isEmpty example then EmptyString else " // => " ++ example)
  ++ nl.

(** ** Effects

    A run is recorded as the list of its effects, in order, together with
    the way it completes: normally, or by a thrown exception.

    [Invoke module method] records that the [try] block is entered and the
    evaluation of [faker[module][method]()] begins: it is the attempt of the
    call.  When the module or the method is missing, the evaluation throws
    before anything is called; the outcome of the evaluation, a value or an
    exception of either origin, is [fakerCall]. *)

Inductive Event :=
| ConsoleLog (line : string)
| ConsoleDebug (line : string)
| ConsoleError (error : string)
| Seed (seed : Z)
| Invoke (module method : string)
| GenerateJson (path : string)
| WriteFileSync (path content : string).

Inductive Completion (A : Type) :=
| Normal (a : A)
| Throw (error : string).

Arguments Normal {A} a.
Arguments Throw {A} error.

Definition M (A : Type) : Type := list Event * Completion A.

Definition ret {A} (a : A) : M A := ([], Normal a).

Definition throw {A} (error : string) : M A := ([], Throw error).

Definition emit (e : Event) : M unit := ([e], Normal tt).

Definition bind {A B} (m : M A) (f : A -> M B) : M B :=
  match m with
  | (t, Normal a) => let (t', r) := f a in ((t ++ t')%list, r)
  | (t, Throw e) => (t, Throw e)
  end.

Definition lift {A} (c : Completion A) : M A := ([], c).

(** [try { m } catch (error) { handler }] *)
Definition tryCatch {A} (m : M A) (handler : string -> M A) : M A :=
  match m with
  | (t, Throw e) => let (t', r) := handler e in ((t ++ t')%list, r)
  | done => done
  end.

Notation "x <- m ;; k" := (bind m (fun x => k))
  (at level 61, m at next level, right associativity).
Notation "m ;; k" := (bind m (fun _ => k))
  (at level 61, right associativity).

Fixpoint mapM {A B} (f : A -> M B) (l : list A) : M (list B) :=
  match l with
  | [] => ret []
  | a :: rest =>
      b <- f a ;;
      bs <- mapM f rest ;;
      ret (b :: bs)
  end.

Definition trace {A} (m : M A) : list Event := fst m.
Definition completion {A} (m : M A) : Completion A := snd m.

(** ** The collaborators *)

Inductive Variant := DataFile | Inline.

Inductive Parser := Markdown | Typescript | Babel.

Record Externals := {
  (** the values the documented library returns *)
  JSValue : Type;
  (** [faker[module][method]()], after [faker.seed(0)] *)
  fakerCall : string -> string -> Completion JSValue;
  (** [JSON.stringify(value)]; [None] is [undefined] *)
  stringifyValue : JSValue -> Completion (option string);
  (** [JSON.stringify(methods, null, 2)] when the flag is set, else
      [JSON.stringify(methods)] *)
  stringifyMethods : bool -> list Method -> string;
  (** [JSON.stringify(modulesPages)] *)
  stringifyPages : list Page -> string;
  (** [marked.parse] *)
  markedParse : string -> string;
  (** prettier's [format], with the options of [.prettierrc.cjs] *)
  format : Parser -> string -> string;
  (** [a.localeCompare(b)] *)
  localeCompare : string -> string -> Z;
  (** [path.resolve] and [__dirname] *)
  resolve : list string -> string;
  dirname : string
}.

(** ** Sorting

    [Array.prototype.sort] with a comparator is stable; under a consistent
    comparator its result is the one of this insertion sort. *)

Section Sort.
Context {A : Type} (compareFn : A -> A -> Z).

(** [a] may stand before [b]: the comparator does not put it after. *)
Definition sortsBefore (a b : A) : Prop := (compareFn a b <= 0)%Z.

Fixpoint insertSorted (x : A) (l : list A) : list A :=
  match l with
  | [] => [x]
  | y :: rest =>
      if (compareFn x y <=? 0)%Z then x :: y :: rest
      else y :: insertSorted x rest
  end.

Fixpoint sort (l : list A) : list A :=
  match l with
  | [] => []
  | x :: rest => insertSorted x (sort rest)
  end.
End Sort.

(** ** The signature extractor *)

Definition scriptCommand : string := "pnpm run generate:api-docs".

(** [typeof parameterDefault === 'undefined'] *)
Definition parameterRequired (parameter : ParameterReflection) : bool :=
  match defaultValue parameter with
  | None => true
  | Some _ => false
  end.

(** [parameter.name + (parameterRequired ? '?' : '')] *)
Definition parameterName (parameter : ParameterReflection) : string :=
  pName parameter ++ (if parameterRequired parameter then "?" else "").

Definition parameterDefaultSignatureText (parameter : ParameterReflection)
  : string :=
  if negb (parameterRequired parameter)
  then " = " ++ match defaultValue parameter with
                | Some parameterDefault => parameterDefault
                | None => "undefined"
                end
  else EmptyString.

(** The entry pushed on [signatureParameters]. *)
Definition signatureParameter (parameter : ParameterReflection) : string :=
  parameterName parameter ++ ": " ++ pType parameter
  ++ parameterDefaultSignatureText parameter.

Section Pipeline.
Context (X : Externals) (variant : Variant).

(** Comment text is pre-rendered by the variant with a data file only. *)
Definition rendered (markdown : string) : string :=
  match variant with
  | DataFile => markedParse X markdown
  | Inline => markdown
  end.

Definition typeParameterRecord (parameter : TypeParameterReflection)
  : MethodParameter :=
  {| mpName := tpName parameter;
     mpType := None;
     mpDefault := None;
     mpDescription := rendered (toBlock (tpComment parameter)) |}.

Definition parameterRecord (parameter : ParameterReflection)
  : MethodParameter :=
  {| mpName := pName parameter;
     mpType := Some (pType parameter);
     mpDefault := defaultValue parameter;
     mpDescription := rendered (toBlock (pComment parameter)) |}.

(** The variables the parameter loop updates. *)
Record LoopState := {
  signatureParameters : list string;
  requiresArgs : bool;
  loopParameters : list MethodParameter
}.

(** [for (let index = 0; signature.parameters &&
          index < signature.parameters.length; index++)] *)
Fixpoint parametersLoop (index : nat) (remaining : list ParameterReflection)
    (st : LoopState) : LoopState :=
  match remaining with
  | [] => st
  | parameter :: rest =>
      parametersLoop (S index) rest
        {| signatureParameters :=
             (signatureParameters st ++ [signatureParameter parameter])%list;
           requiresArgs :=
             if (index =? 0)%nat then parameterRequired parameter
             else requiresArgs st;
           loopParameters :=
             (loopParameters st ++ [parameterRecord parameter])%list |}
  end.

Definition extractParameters (signature : SignatureReflection) : LoopState :=
  let typeParameters := match typeParameters signature with
                        | Some l => l
                        | None => []
                        end in
  let st := {| signatureParameters := [];
               requiresArgs := false;
               loopParameters := map typeParameterRecord typeParameters |} in
  match parameters signature with
  | Some l => parametersLoop 0 l st
  | None => st
  end.

Definition signatureTypeParametersString (signature : SignatureReflection)
  : string :=
  let signatureTypeParameters :=
    map tpName (match typeParameters signature with
                | Some l => l
                | None => []
                end) in
  match signatureTypeParameters with
  | [] => EmptyString
  | _ => "<" ++ join ", " signatureTypeParameters ++ ">"
  end.

(** The first line of [examples], without its line break. *)
Definition signatureSummary (lowerModuleName methodName : string)
    (signature : SignatureReflection) : string :=
  "faker." ++ lowerModuleName ++ "." ++ methodName
  ++ signatureTypeParametersString signature
  ++ "(" ++ join ", " (signatureParameters (extractParameters signature))
  ++ "): " ++ sigType signature.

(** ** The example synthesizer *)

(** The body of the [try] block: the lines it appends to [examples].  Its
    first effect marks the attempt of the call, see [Invoke]. *)
Definition tryExample (lowerModuleName methodName : string) : M string :=
  emit (Invoke lowerModuleName methodName) ;;
  value <- lift (fakerCall X lowerModuleName methodName) ;;
  serialized <- lift (stringifyValue X value) ;;
  match serialized with
  | None => throw "TypeError: Cannot read properties of undefined"
  | Some serialized =>
      ret (exampleCall lowerModuleName methodName (example serialized))
  end.

Definition exampleTags (signature : SignatureReflection) : list string :=
  match sigComment signature with
  | Some comment =>
      map (fun tag => trimEnd (tagText tag))
          (filter (fun tag => (tagName tag =? "example")%string)
                  (tags comment))
  | None => []
  end.

Definition exampleTagsText (signature : SignatureReflection) : string :=
  match exampleTags signature with
  | [] => EmptyString
  | tagTexts => trim (join nl tagTexts) ++ nl
  end.

Definition composeExamples (lowerModuleName methodName : string)
    (signature : SignatureReflection) : M string :=
  let examples :=
    signatureSummary lowerModuleName methodName signature ++ nl in
  emit (Seed 0) ;;
  call <- (if negb (requiresArgs (extractParameters signature))
           then tryCatch (tryExample lowerModuleName methodName)
                         (fun _ => ret EmptyString)
           else ret EmptyString) ;;
  ret (examples ++ call ++ exampleTagsText signature).

Definition renderedExamples (examples : string) : string :=
  match variant with
  | DataFile => markedParse X ("```ts" ++ nl ++ examples ++ nl ++ "```")
  | Inline => examples
  end.

Definition processMethod (lowerModuleName : string)
    (method : MethodReflection) : M Method :=
  let methodName := methodDeclName method in
  emit (ConsoleDebug ("- method " ++ prettyMethodName methodName)) ;;
  signature <- match signatures method with
               | signature :: _ => ret signature
               | [] => throw "TypeError: Cannot read properties of undefined"
               end ;;
  examples <- composeExamples lowerModuleName methodName signature ;;
  ret {| name := prettyMethodName methodName;
         description := rendered (toBlock (sigComment signature));
         methodParameters := loopParameters (extractParameters signature);
         returns := sigType signature;
         examples := renderedExamples examples |}.

(** ** Paths *)

Definition pathRoot : string := resolve X [dirname X; ".."].
Definition pathDocsDir : string := resolve X [pathRoot; "docs"].
Definition pathDocsApiPages : string :=
  resolve X [pathDocsDir; ".vitepress"; "api-pages.mjs"].
Definition pathOutputDir : string := resolve X [pathDocsDir; "api"].
Definition pathOutputJson : string := resolve X [pathOutputDir; "typedoc.json"].

(** ** The page renderer *)

(** The template literal of the markdown page up to the heading. *)
Definition contentHead (moduleName lowerModuleName : string)
    (methods : list Method) : string :=
  nl
  ++ "      <script setup>" ++ nl
  ++ "      import ApiDocsMethod from '../.vitepress/components/api-docs/method.vue'" ++ nl
  ++ match variant with
     | DataFile =>
         "      import { " ++ lowerModuleName ++ " } from './"
         ++ lowerModuleName ++ "'" ++ nl
         ++ "      import { ref } from 'vue';" ++ nl
         ++ nl
         ++ "      const methods = ref(" ++ lowerModuleName ++ ");" ++ nl
     | Inline =>
         "      import { ref } from 'vue';" ++ nl
         ++ nl
         ++ "      const methods = ref(" ++ stringifyMethods X false methods
         ++ ");" ++ nl
     end
  ++ "      </script>" ++ nl
  ++ nl
  ++ "      # " ++ moduleName ++ nl.

(** The two banner lines of the markdown page, with the empty line before
    them. *)
Definition contentBanner : string :=
  nl
  ++ "      <!-- This file is automatically generated. -->" ++ nl
  ++ "      <!-- Run '" ++ scriptCommand ++ "' to update -->" ++ nl.

(** The rest of the template literal. *)
Definition contentBody (module : ModuleReflection) : string :=
  nl
  ++ "      ::: v-pre" ++ nl
  ++ nl
  ++ "      " ++ toBlock (moduleComment module) ++ nl
  ++ nl
  ++ "      :::" ++ nl
  ++ nl
  ++ "      <ApiDocsMethod v-for=" ++ dq ++ "method of methods" ++ dq
  ++ " v-bind:key=" ++ dq ++ "method.name" ++ dq
  ++ " :method=" ++ dq ++ "method" ++ dq ++ " />" ++ nl
  ++ "      ".

(** [content], before it is formatted. *)
Definition content (module : ModuleReflection) (methods : list Method)
  : string :=
  replace newlineSpaces (fun _ => nl) true
    (contentHead (moduleName module) (lowerModuleName (moduleName module))
                 methods
     ++ contentBanner ++ contentBody module).

(** [contentTs], before it is formatted. *)
Definition contentTs (lowerModuleName : string) (methods : list Method)
  : string :=
  nl
  ++ "    import type { Method } from '../.vitepress/components/api-docs/method';" ++ nl
  ++ nl
  ++ "    export const " ++ lowerModuleName ++ ": Method[] = "
  ++ stringifyMethods X true methods.

Definition writeFileSync (path content : string) : M unit :=
  emit (WriteFileSync path content).

(** The body of the loop over the modules; the result is the entry pushed
    on [modulesPages]. *)
Definition processModule (module : ModuleReflection) : M Page :=
  let moduleName := moduleName module in
  let lowerModuleName := lowerModuleName moduleName in
  emit (ConsoleLog ("Processing Module " ++ moduleName)) ;;
  methods <- mapM (processMethod lowerModuleName) (moduleMethods module) ;;
  writeFileSync (resolve X [pathOutputDir; lowerModuleName ++ ".md"])
                (format X Markdown (content module methods)) ;;
  match variant with
  | DataFile =>
      writeFileSync (resolve X [pathOutputDir; lowerModuleName ++ ".ts"])
                    (format X Typescript (contentTs lowerModuleName methods))
  | Inline => ret tt
  end ;;
  ret {| pageText := moduleName;
         pageLink := "/api/" ++ lowerModuleName ++ ".html" |}.

(** ** The manifest writer *)

Definition fixedPages : list Page :=
  [ {| pageText := "Fake"; pageLink := "/api/fake.html" |};
    {| pageText := "Localization"; pageLink := "/api/localization.html" |} ].

(** [modulesPages.sort((a, b) => a.text.localeCompare(b.text))] *)
Definition sortPages (modulesPages : list Page) : list Page :=
  sort (fun a b => localeCompare X (pageText a) (pageText b)) modulesPages.

(** [apiPagesContent], before it is formatted. *)
Definition apiPagesContent (modulesPages : list Page) : string :=
  replace newlineSpaces (fun _ => nl) false
    (nl
     ++ "    // This file is automatically generated." ++ nl
     ++ "    // Run '" ++ scriptCommand ++ "' to update" ++ nl
     ++ "    export const apiPages = " ++ stringifyPages X modulesPages
     ++ ";" ++ nl
     ++ "    ").

(** ** [build] *)

Definition build (project : option ProjectReflection) : M unit :=
  match project with
  | None => ret tt
  | Some project =>
      emit (GenerateJson pathOutputJson) ;;
      modules <- match namespaces project with
                 | modules :: _ => ret modules
                 | [] => throw "TypeError: Cannot read properties of undefined"
                 end ;;
      pages <- mapM processModule modules ;;
      emit (ConsoleLog "Updating api-pages.mjs") ;;
      let modulesPages := sortPages (fixedPages ++ pages)%list in
      writeFileSync pathDocsApiPages
                    (format X Babel (apiPagesContent modulesPages))
  end.

(** [build().catch(console.error)] *)
Definition main (project : option ProjectReflection) : M unit :=
  tryCatch (build project) (fun error => emit (ConsoleError error)).
End Pipeline.

(** ** The written files of a run *)

Definition isWrite (e : Event) : bool :=
  match e with
  | GenerateJson _ | WriteFileSync _ _ => true
  | _ => false
  end.

(** [needle] occurs in [hay]. *)
Definition includes (needle hay : string) : Prop :=
  exists before after, hay = before ++ needle ++ after.


(** ** The wording of the specification, as definitions *)

(** A space goes before every code unit that starts a run of upper-case
    letters; [inRun] tells whether the previous code unit was one. *)
Fixpoint spaceBeforeRuns (inRun : bool) (s : string) : string :=
  match s with
  | EmptyString => EmptyString
  | String c r =>
      if isUpper c
      then (if inRun then String c (spaceBeforeRuns true r)
            else String space (String c (spaceBeforeRuns true r)))
      else String c (spaceBeforeRuns false r)
  end.

(** The first character capitalized, a space before every run of upper-case
    letters in the remainder. *)
Definition displayName (methodName : string) : string :=
  match methodName with
  | EmptyString => EmptyString
  | String c r => String (toUpperCaseChar c) (spaceBeforeRuns false r)
  end.

Fixpoint withoutSpaces (s : string) : string :=
  match s with
  | EmptyString => EmptyString
  | String c r =>
      if isSpace c then withoutSpaces r else String c (withoutSpaces r)
  end.

(** The trimmed short text, or [Missing]; then the long text after an empty
    line, when there is one. *)
Definition descriptionBlock (comment : option Comment) : string :=
  match comment with
  | None => "Missing"
  | Some c =>
      (if isEmpty (trim (shortText c)) then "Missing" else trim (shortText c))
      ++ (if isEmpty (text c) then EmptyString else nl ++ nl ++ text c)
  end.

(** The serialized result of the speculative invocation, when neither the
    call nor the serialization throws and the result is not [undefined]. *)
Definition serializedExample (X : Externals) (lowerModuleName methodName : string)
  : option string :=
  match fakerCall X lowerModuleName methodName with
  | Normal value =>
      match stringifyValue X value with
      | Normal (Some serialized) => Some serialized
      | _ => None
      end
  | Throw _ => None
  end.

(** What the example synthesizer adds between the signature summary and the
    author's examples. *)
Definition synthesizedCall (X : Externals) (variant : Variant)
    (lowerModuleName methodName : string) (signature : SignatureReflection)
  : string :=
  if requiresArgs (extractParameters X variant signature) then EmptyString
  else match serializedExample X lowerModuleName methodName with
       | Some serialized =>
           exampleCall lowerModuleName methodName (example serialized)
       | None => EmptyString
       end.

(** The elements of a list that may be undefined. *)
Definition declared {A} (l : option (list A)) : list A :=
  match l with
  | Some l => l
  | None => []
  end.


(** The navigation entry of a module. *)
Definition modulePage (module : ModuleReflection) : Page :=
  {| pageText := moduleName module;
     pageLink := "/api/" ++ lowerModuleName (moduleName module) ++ ".html" |}.

(** The paths a run has written to, in order. *)
Definition writtenPaths (t : list Event) : list string :=
  flat_map (fun e => match e with
                     | GenerateJson path | WriteFileSync path _ => [path]
                     | _ => []
                     end) t.

(** The files written for one module. *)
Definition modulePaths (X : Externals) (variant : Variant)
    (module : ModuleReflection) : list string :=
  let lowerModuleName := lowerModuleName (moduleName module) in
  resolve X [pathOutputDir X; lowerModuleName ++ ".md"]
  :: match variant with
     | DataFile => [resolve X [pathOutputDir X; lowerModuleName ++ ".ts"]]
     | Inline => []
     end.


(** Every method of every module has a call signature. *)
Definition methodsHaveSignatures (modules : list ModuleReflection) : Prop :=
  Forall (fun module =>
            Forall (fun method => signatures method <> [])
                   (moduleMethods module)) modules.

(** ** Sample collaborators, for running the pipeline on concrete input *)

Definition sampleCompare (a b : string) : Z :=
  match String.compare a b with
  | Lt => (-1)%Z
  | Eq => 0%Z
  | Gt => 1%Z
  end.

Definition sampleStringifyPages (pages : list Page) : string :=
  "[" ++ join "," (map (fun p => "{" ++ dq ++ "text" ++ dq ++ ":" ++ dq
                                  ++ pageText p ++ dq ++ "," ++ dq ++ "link"
                                  ++ dq ++ ":" ++ dq ++ pageLink p ++ dq ++ "}")
                       pages) ++ "]".

(** A library whose methods return strings, serialized by quoting; the
    method [boom] throws and [nothing] returns [undefined]. *)
Definition sampleFaker (module method : string) : Completion (option string) :=
  if (method =? "boom")%string then Throw "Error: boom"
  else if (method =? "nothing")%string then Normal None
  else if (method =? "paragraph")%string
  then Normal (Some "Lorem ipsum dolor sit amet, consectetur adipiscing elit")
  else Normal (Some (module ++ "-" ++ method)).

Definition sampleExternals : Externals :=
  {| JSValue := option string;
     fakerCall := sampleFaker;
     stringifyValue := fun v =>
       Normal (option_map (fun s => dq ++ s ++ dq) v);
     stringifyMethods := fun _ methods =>
       "[" ++ join "," (map (fun m => dq ++ name m ++ dq) methods) ++ "]";
     stringifyPages := sampleStringifyPages;
     markedParse := fun s => "<p>" ++ s ++ "</p>";
     format := fun _ s => s;
     localeCompare := sampleCompare;
     resolve := join "/";
     dirname := "/repo/scripts" |}.

(** A sample reflection tree: the module [Address] with the methods
    [zipCode] (a type parameter, an optional and a required parameter, an
    author's example), [paragraph] and [boom], and the module [_Date] without
    methods. *)
Definition sampleLength : ParameterReflection :=
  {| pName := "length"; pType := "number"; defaultValue := None;
     pComment := None |}.

Definition sampleSep : ParameterReflection :=
  {| pName := "sep"; pType := "string"; defaultValue := Some "'-'";
     pComment := Some {| shortText := " separator "; text := "";
                         tags := [] |} |}.

Definition sampleZipCode : MethodReflection :=
  {| methodDeclName := "zipCode";
     signatures :=
       [ {| typeParameters := Some [ {| tpName := "T"; tpComment := None |} ];
            parameters := Some [sampleSep; sampleLength];
            sigType := "string";
            sigComment :=
              Some {| shortText := "Generates a zip code.";
                      text := "";
                      tags := [ {| tagName := "example";
                                   tagText := "faker.address.zipCode() // '12345' " |} ] |} |} ] |}.

Definition sampleNoParameters (methodName : string) : MethodReflection :=
  {| methodDeclName := methodName;
     signatures := [ {| typeParameters := None; parameters := None;
                        sigType := "string"; sigComment := None |} ] |}.

Definition sampleRequired (methodName : string) : MethodReflection :=
  {| methodDeclName := methodName;
     signatures := [ {| typeParameters := None;
                        parameters := Some [sampleLength; sampleSep];
                        sigType := "string"; sigComment := None |} ] |}.

Definition sampleAddress : ModuleReflection :=
  {| moduleDeclName := "Address";
     moduleComment := None;
     moduleMethods := [ sampleZipCode; sampleNoParameters "paragraph";
                        sampleNoParameters "boom" ] |}.

Definition sampleDate : ModuleReflection :=
  {| moduleDeclName := "_Date"; moduleComment := None; moduleMethods := [] |}.

Definition sampleProject : ProjectReflection :=
  {| namespaces := [[sampleAddress; sampleDate]] |}.

(** ** The HTML helpers of the variant without data file *)

(** The pattern [/c/] of one literal code unit. *)
Definition literal (code : nat) : Matcher := fun s =>
  match s with
  | String c _ => if (nat_of_ascii c =? code)%nat then Some 1 else None
  | EmptyString => None
  end.

(** Five global replacements in a row: the ampersand by [&amp;], then [<]
    by [&lt;], [>] by [&gt;], the double quote by [&quot;] and the single
    quote by [&#039;]. *)
Definition escapeHtml (unsafe : string) : string :=
  replace (literal 39) (fun _ => "&#039;") true
    (replace (literal 34) (fun _ => "&quot;") true
       (replace (literal 62) (fun _ => "&gt;") true
          (replace (literal 60) (fun _ => "&lt;") true
             (replace (literal 38) (fun _ => "&amp;") true unsafe)))).

(** [parameterRow(name, type, def, comment)]; reading [replace] of an
    undefined [type] throws. *)
Definition parameterRow (name : string) (type def : option string)
    (comment : option Comment) : Completion string :=
  let def := if truthy def
             then "<code>" ++ match def with
                              | Some d => d
                              | None => EmptyString
                              end ++ "</code>"
             else EmptyString in
  match type with
  | None => Throw "TypeError: Cannot read properties of undefined"
  | Some type =>
      Normal ("<tr>" ++ nl
              ++ "  <td>" ++ escapeHtml name ++ "</td>" ++ nl
              ++ "  <td>" ++ escapeHtml type ++ "</td>" ++ nl
              ++ "  <td>" ++ def ++ "</td>" ++ nl
              ++ "  <td>" ++ nl
              ++ nl
              ++ "::: v-pre" ++ nl
              ++ nl
              ++ toBlock comment ++ nl
              ++ nl
              ++ ":::" ++ nl
              ++ nl
              ++ "  </td>" ++ nl
              ++ "</tr>" ++ nl)
  end.

(** ** More of the specification's wording, as definitions *)

(** Every code unit with the given code replaced by [replacement]. *)
Fixpoint substituteChar (code : nat) (replacement : string) (s : string)
  : string :=
  match s with
  | EmptyString => EmptyString
  | String c r =>
      (if (nat_of_ascii c =? code)%nat then replacement
       else String c EmptyString)
      ++ substituteChar code replacement r
  end.

(** The entity of a code unit, or the code unit itself. *)
Definition escapeChar (c : ascii) : string :=
  if (nat_of_ascii c =? 38)%nat then "&amp;"
  else if (nat_of_ascii c =? 60)%nat then "&lt;"
  else if (nat_of_ascii c =? 62)%nat then "&gt;"
  else if (nat_of_ascii c =? 34)%nat then "&quot;"
  else if (nat_of_ascii c =? 39)%nat then "&#039;"
  else String c EmptyString.

(** Every code unit replaced by its entity, in one pass. *)
Fixpoint escapeChars (s : string) : string :=
  match s with
  | EmptyString => EmptyString
  | String c r => escapeChar c ++ escapeChars r
  end.

(** [c] is one of [&], [<], [>], the double and the single quote. *)
Definition isHtmlSpecial (c : ascii) : bool :=
  ((nat_of_ascii c =? 38) || (nat_of_ascii c =? 60) || (nat_of_ascii c =? 62)
   || (nat_of_ascii c =? 34) || (nat_of_ascii c =? 39))%nat.

(** Some code unit of [s] satisfies [p]. *)
Fixpoint existsChar (p : ascii -> bool) (s : string) : bool :=
  match s with
  | EmptyString => false
  | String c r => p c || existsChar p r
  end.

Definition isUnderscore (c : ascii) : bool := (nat_of_ascii c =? 95)%nat.

(** The number of runs of upper-case letters in [s]; [inRun] tells whether
    the code unit before [s] was one. *)
Fixpoint countUpperRuns (inRun : bool) (s : string) : nat :=
  match s with
  | EmptyString => 0
  | String c r =>
      if isUpper c
      then (if inRun then 0 else 1) + countUpperRuns true r
      else countUpperRuns false r
  end.

Definition startsWithSpace (s : string) : bool :=
  match s with
  | String c _ => isSpace c
  | EmptyString => false
  end.

(** Some line break of [s] is followed by a space. *)
Fixpoint hasIndentedLine (s : string) : bool :=
  match s with
  | EmptyString => false
  | String c r => (isNewline c && startsWithSpace r) || hasIndentedLine r
  end.

(** Every invocation of the documented library comes directly after a
    [Seed 0]; [seeded] tells whether the effect before [t] was one. *)
Fixpoint wellSeeded (seeded : bool) (t : list Event) : bool :=
  match t with
  | [] => true
  | Seed seed :: rest => wellSeeded (seed =? 0)%Z rest
  | Invoke _ _ :: rest => seeded && wellSeeded false rest
  | _ :: rest => wellSeeded false rest
  end.

(** The attempted invocations of a run, in order. *)
Definition attemptedInvocations (t : list Event) : list (string * string) :=
  flat_map (fun e => match e with
                     | Invoke module method => [(module, method)]
                     | _ => []
                     end) t.

(** The seeds of a run, in order. *)
Definition seeds (t : list Event) : list Z :=
  flat_map (fun e => match e with
                     | Seed seed => [seed]
                     | _ => []
                     end) t.

(** The methods of a module whose first signature has no parameter or a
    first parameter with a default value. *)
Definition zeroArgumentMethods (X : Externals) (variant : Variant)
    (module : ModuleReflection) : list (string * string) :=
  flat_map
    (fun method =>
       match signatures method with
       | signature :: _ =>
           if requiresArgs (extractParameters X variant signature) then []
           else [(lowerModuleName (moduleName module), methodDeclName method)]
       | [] => []
       end)
    (moduleMethods module).

(** A module with a method that has no call signature, after one that has. *)
Definition sampleBroken : ModuleReflection :=
  {| moduleDeclName := "Broken";
     moduleComment := None;
     moduleMethods := [ sampleNoParameters "first";
                        {| methodDeclName := "second"; signatures := [] |};
                        sampleNoParameters "third" ] |}.

Definition sampleBrokenProject : ProjectReflection :=
  {| namespaces := [[sampleAddress; sampleBroken; sampleDate]] |}.





(** The first code unit of [s], if any, is an ASCII one. *)
Definition startsWithAscii (s : string) : bool :=
  match s with
  | String c _ => (nat_of_ascii c <? 128)%nat
  | EmptyString => true
  end.

(** * Properties *)

(** ** The definitions on concrete input *)

Example prettyMethodName_zipCode : prettyMethodName "zipCode" = "Zip Code".
Proof. reflexivity. Qed.

Example prettyMethodName_acronym :
  prettyMethodName "toURLString" = "To URLString".
Proof. reflexivity. Qed.

Example moduleName_date :
  moduleName sampleDate = "Date"
  /\ lowerModuleName (moduleName sampleDate) = "date".
Proof. split; reflexivity. Qed.

Example toBlock_separator :
  toBlock (pComment sampleSep) = "separator"
  /\ toBlock (Some {| shortText := "  "; text := "More."; tags := [] |})
     = "Missing" ++ nl ++ nl ++ "More.".
Proof. split; reflexivity. Qed.

Example example_paragraph :
  example (dq ++ "Lorem ipsum dolor sit amet, consectetur adipiscing elit"
           ++ dq)
  = dq ++ "Lorem ipsum dolor sit amet, consectetur adipis...".
Proof. reflexivity. Qed.

Example processMethod_zipCode :
  processMethod sampleExternals Inline "address" sampleZipCode
  = ([ ConsoleDebug "- method Zip Code"; Seed 0; Invoke "address" "zipCode" ],
     Normal
       {| name := "Zip Code";
          description := "Generates a zip code.";
          methodParameters :=
            [ {| mpName := "T"; mpType := None; mpDefault := None;
                 mpDescription := "Missing" |};
              {| mpName := "sep"; mpType := Some "string";
                 mpDefault := Some "'-'"; mpDescription := "separator" |};
              {| mpName := "length"; mpType := Some "number";
                 mpDefault := None; mpDescription := "Missing" |} ];
          returns := "string";
          examples :=
            "faker.address.zipCode<T>(sep: string = '-', length?: number): string"
            ++ nl ++ "faker.address.zipCode() // => " ++ dq
            ++ "address-zipCode" ++ dq ++ nl
            ++ "faker.address.zipCode() // '12345'" ++ nl |}).
Proof. reflexivity. Qed.

Example processMethod_required :
  processMethod sampleExternals Inline "address" (sampleRequired "county")
  = ([ ConsoleDebug "- method County"; Seed 0 ],
     Normal
       {| name := "County";
          description := "Missing";
          methodParameters :=
            [ {| mpName := "length"; mpType := Some "number";
                 mpDefault := None; mpDescription := "Missing" |};
              {| mpName := "sep"; mpType := Some "string";
                 mpDefault := Some "'-'"; mpDescription := "separator" |} ];
          returns := "string";
          examples :=
            "faker.address.county(length?: number, sep: string = '-'): string"
            ++ nl |}).
Proof. reflexivity. Qed.

(** ** Strings *)

Lemma append_assoc (a b c : string) : (a ++ b) ++ c = a ++ (b ++ c).
Proof. induction a as [|x a IH]; simpl; [reflexivity | now rewrite IH]. Qed.

Lemma length_append (a b : string) :
  String.length (a ++ b) = String.length a + String.length b.
Proof. induction a as [|x a IH]; simpl; [reflexivity | now rewrite IH]. Qed.

Lemma length_substring_0 (n : nat) (s : string) :
  n <= String.length s -> String.length (substring 0 n s) = n.
Proof.
  revert s; induction n as [|n IH]; intros [|c r] H; simpl in *;
    try reflexivity; try lia.
  rewrite IH; [reflexivity | lia].
Qed.




(** ** The monad of effects *)

Lemma trace_bind {A B} (m : M A) (f : A -> M B) :
  trace (bind m f)
  = (trace m ++ match completion m with
                | Normal a => trace (f a)
                | Throw _ => []
                end)%list.
Proof.
  destruct m as [t [a|e]]; unfold bind, trace, completion; simpl.
  - destruct (f a); reflexivity.
  - now rewrite app_nil_r.
Qed.

Lemma completion_bind {A B} (m : M A) (f : A -> M B) :
  completion (bind m f)
  = match completion m with
    | Normal a => completion (f a)
    | Throw e => Throw e
    end.
Proof.
  destruct m as [t [a|e]]; unfold bind, completion; simpl.
  - destruct (f a); reflexivity.
  - reflexivity.
Qed.

Lemma completion_mapM {A B} (f : A -> M B) (g : A -> B) (l : list A) :
  (forall a, In a l -> completion (f a) = Normal (g a)) ->
  completion (mapM f l) = Normal (map g l).
Proof.
  induction l as [|a l IH]; intros H; simpl; [reflexivity|].
  rewrite completion_bind, (H a (or_introl eq_refl)).
  rewrite completion_bind, IH; [reflexivity|].
  intros b Hb; apply H; now right.
Qed.

Lemma trace_mapM {A B} (f : A -> M B) (g : A -> B) (l : list A) :
  (forall a, In a l -> completion (f a) = Normal (g a)) ->
  trace (mapM f l) = flat_map (fun a => trace (f a)) l.
Proof.
  induction l as [|a l IH]; intros H; simpl; [reflexivity|].
  rewrite trace_bind, (H a (or_introl eq_refl)).
  rewrite trace_bind.
  rewrite (completion_mapM f g l) by (intros b Hb; apply H; now right).
  rewrite IH by (intros b Hb; apply H; now right).
  simpl. now rewrite app_nil_r.
Qed.

Lemma in_trace_mapM {A B} (f : A -> M B) (l : list A) (e : Event) :
  In e (trace (mapM f l)) -> exists a, In a l /\ In e (trace (f a)).
Proof.
  induction l as [|a l IH]; simpl; [intros []|].
  rewrite trace_bind. intros H. apply in_app_or in H as [H|H].
  - exists a; auto.
  - destruct (completion (f a)); [|destruct H].
    rewrite trace_bind in H. apply in_app_or in H as [H|H].
    + destruct (IH H) as (b & Hb & He). exists b; auto.
    + destruct (completion (mapM f l)); destruct H.
Qed.

(** ** One method *)

Section Method.
Context (X : Externals) (variant : Variant).

Lemma tryExample_caught (lowerModuleName methodName : string) :
  tryCatch (tryExample X lowerModuleName methodName)
           (fun _ => ret EmptyString)
  = ([Invoke lowerModuleName methodName],
     Normal match serializedExample X lowerModuleName methodName with
            | Some serialized =>
                exampleCall lowerModuleName methodName (example serialized)
            | None => EmptyString
            end).
Proof.
  unfold tryExample, serializedExample, lift, emit, throw, ret, bind, tryCatch.
  destruct (fakerCall X lowerModuleName methodName) as [value|e]; simpl;
    [|reflexivity].
  destruct (stringifyValue X value) as [[serialized|]|e]; reflexivity.
Qed.

Lemma composeExamples_run (lowerModuleName methodName : string)
    (signature : SignatureReflection) :
  composeExamples X variant lowerModuleName methodName signature
  = (Seed 0 :: (if requiresArgs (extractParameters X variant signature)
                then []
                else [Invoke lowerModuleName methodName]),
     Normal ((signatureSummary X variant lowerModuleName methodName signature
              ++ nl)
             ++ synthesizedCall X variant lowerModuleName methodName signature
             ++ exampleTagsText signature)).
Proof.
  unfold composeExamples, synthesizedCall.
  destruct (requiresArgs (extractParameters X variant signature)); simpl.
  - reflexivity.
  - rewrite tryExample_caught. reflexivity.
Qed.

Lemma processMethod_run (lowerModuleName methodName : string)
    (signature : SignatureReflection) (overloads : list SignatureReflection) :
  processMethod X variant lowerModuleName
    {| methodDeclName := methodName; signatures := signature :: overloads |}
  = (ConsoleDebug ("- method " ++ prettyMethodName methodName)
     :: Seed 0
     :: (if requiresArgs (extractParameters X variant signature)
         then []
         else [Invoke lowerModuleName methodName]),
     Normal
       {| name := prettyMethodName methodName;
          description := rendered X variant (toBlock (sigComment signature));
          methodParameters :=
            loopParameters (extractParameters X variant signature);
          returns := sigType signature;
          examples :=
            renderedExamples X variant
              ((signatureSummary X variant lowerModuleName methodName signature
                ++ nl)
               ++ synthesizedCall X variant lowerModuleName methodName
                    signature
               ++ exampleTagsText signature) |}).
Proof.
  unfold processMethod; cbn [methodDeclName signatures].
  unfold emit, ret, bind at 1 2.
  rewrite composeExamples_run.
  destruct (requiresArgs (extractParameters X variant signature));
    reflexivity.
Qed.

Lemma requiresArgs_loop (remaining : list ParameterReflection) :
  forall (index : nat) (st : LoopState),
    requiresArgs (parametersLoop X variant (S index) remaining st)
    = requiresArgs st.
Proof.
  induction remaining as [|parameter rest IH]; intros index st; simpl;
    [reflexivity|].
  now rewrite IH.
Qed.

Lemma requiresArgs_first (signature : SignatureReflection) :
  requiresArgs (extractParameters X variant signature)
  = match parameters signature with
    | Some (parameter :: _) => parameterRequired parameter
    | _ => false
    end.
Proof.
  unfold extractParameters.
  destruct (parameters signature) as [[|parameter rest]|]; simpl;
    try reflexivity.
  now rewrite requiresArgs_loop.
Qed.
End Method.

(** ** Claims on the signature extractor *)

(** C1: a method is treated as callable without arguments, and the run then
    holds the no-argument invocation, exactly when its signature has no
    parameters or the first declared parameter has a default value; the
    parameters after the first have no say. *)
Theorem zero_argument_callable_by_first_parameter
    (X : Externals) (variant : Variant) (lowerModuleName methodName : string)
    (signature : SignatureReflection) (overloads : list SignatureReflection) :
  let method :=
    {| methodDeclName := methodName; signatures := signature :: overloads |} in
  let zeroArgumentCallable :=
    negb (requiresArgs (extractParameters X variant signature)) in
  (zeroArgumentCallable = true
   <-> (parameters signature = None
        \/ parameters signature = Some []
        \/ exists parameter rest default,
             parameters signature = Some (parameter :: rest)
             /\ defaultValue parameter = Some default))
  /\ (In (Invoke lowerModuleName methodName)
         (trace (processMethod X variant lowerModuleName method))
      <-> zeroArgumentCallable = true)
  /\ zeroArgumentCallable
     = match parameters signature with
       | Some (first :: _) => negb (parameterRequired first)
       | _ => true
       end.
Proof.
  intros method zeroArgumentCallable.
  subst method zeroArgumentCallable.
  rewrite processMethod_run, requiresArgs_first.
  unfold trace, parameterRequired; cbn [fst].
  destruct (parameters signature) as [[|parameter rest]|]; cbn.
  - repeat split; auto.
  - destruct (defaultValue parameter) as [default|] eqn:D; cbn.
    + repeat split; auto.
      intros _. right; right. exists parameter, rest, default. auto.
    + repeat split; try discriminate.
      * intros [H|[H|(p & r & d & H & Hd)]]; try discriminate.
        injection H as <- <-. congruence.
      * intros [H|[H|[]]]; discriminate.
  - repeat split; auto.
Qed.

(** C2, as the code has it: the marker [?] is appended to the names of the
    parameters without a default value, and the text [ = default] to those
    with one; a parameter without default is rendered [length?: number], one
    with the default ['-'] is rendered [sep: string = '-']. *)
Theorem optional_marker_on_parameters_without_default :
  (forall parameter,
      parameterName parameter
      = pName parameter ++ match defaultValue parameter with
                           | None => "?"
                           | Some _ => EmptyString
                           end)
  /\ (forall parameter,
         parameterDefaultSignatureText parameter
         = match defaultValue parameter with
           | None => EmptyString
           | Some default => " = " ++ default
           end)
  /\ signatureParameter {| pName := "length"; pType := "number";
                           defaultValue := None; pComment := None |}
     = "length?: number"
  /\ signatureParameter {| pName := "sep"; pType := "string";
                           defaultValue := Some "'-'"; pComment := None |}
     = "sep: string = '-'".
Proof.
  repeat split.
  - intros parameter. unfold parameterName, parameterRequired.
    now destruct (defaultValue parameter).
  - intros parameter. unfold parameterDefaultSignatureText, parameterRequired.
    now destruct (defaultValue parameter).
Qed.

(** ** Claims on names and descriptions *)

Lemma substring_0_0 (s : string) : substring 0 0 s = EmptyString.
Proof. now destruct s. Qed.

Lemma upperRun_scan (s : string) :
  substring 0 (spanLength isUpper s) s
  ++ replaceScan upperRun (fun m => " " ++ m) true (spanLength isUpper s) s
  = spaceBeforeRuns true s
  /\ replaceScan upperRun (fun m => " " ++ m) true 0 s
     = spaceBeforeRuns false s.
Proof.
  induction s as [|c r [IHrun IHscan]]; [split; reflexivity|].
  assert (Hscan : replaceScan upperRun (fun m => " " ++ m) true 0 (String c r)
                  = spaceBeforeRuns false (String c r)).
  { cbn [replaceScan spaceBeforeRuns]. unfold upperRun.
    cbn [spanLength]. destruct (isUpper c); cbn [substring].
    - change (" " ++ String c (substring 0 (spanLength isUpper r) r))
        with (String space
                (String c (substring 0 (spanLength isUpper r) r))).
      cbn [append]. do 2 f_equal. exact IHrun.
    - f_equal. exact IHscan. }
  split; [|exact Hscan].
  cbn [spanLength spaceBeforeRuns]. destruct (isUpper c) eqn:U.
  - cbn [substring replaceScan append]. f_equal. exact IHrun.
  - rewrite substring_0_0. etransitivity; [exact Hscan|].
    cbn [spaceBeforeRuns]. now rewrite U.
Qed.

Lemma isUpper_not_space (c : ascii) : isUpper c = true -> isSpace c = false.
Proof.
  unfold isUpper, isSpace. intros H.
  apply andb_true_iff in H as [H1 H2].
  apply Nat.leb_le in H1. apply Nat.eqb_neq. lia.
Qed.

Lemma withoutSpaces_spaceBeforeRuns (s : string) :
  forall inRun, withoutSpaces (spaceBeforeRuns inRun s) = withoutSpaces s.
Proof.
  induction s as [|c r IH]; intros inRun; [reflexivity|].
  cbn [spaceBeforeRuns withoutSpaces].
  destruct (isUpper c) eqn:U.
  - rewrite (isUpper_not_space c U).
    destruct inRun; cbn [withoutSpaces];
      rewrite ?(isUpper_not_space c U), IH; reflexivity.
  - cbn [withoutSpaces]. now rewrite IH.
Qed.

Lemma prettyMethodName_cons (c : ascii) (r : string) :
  prettyMethodName (String c r)
  = String (toUpperCaseChar c) (spaceBeforeRuns false r).
Proof.
  unfold prettyMethodName, replace.
  cbn [substring substringFrom]. rewrite substring_0_0.
  unfold toUpperCase; cbn [mapString].
  change (String (toUpperCaseChar c)
            (replaceScan upperRun (fun m => " " ++ m) true 0 r)
          = String (toUpperCaseChar c) (spaceBeforeRuns false r)).
  f_equal. exact (proj2 (upperRun_scan r)).
Qed.

(** C7: the displayed name is the method name with its first character
    capitalized and one space before every run of upper-case letters of the
    remainder; without the spaces it is the name with the first character
    capitalized, so no other character changes; [randomBankAccount] becomes
    [Random Bank Account]. *)
Theorem pretty_method_name_spaces_upper_runs :
  forall methodName : string,
    prettyMethodName methodName = displayName methodName
    /\ withoutSpaces (prettyMethodName methodName)
       = withoutSpaces (toUpperCase (substring 0 1 methodName)
                        ++ substringFrom 1 methodName)
    /\ prettyMethodName "randomBankAccount" = "Random Bank Account".
Proof.
  intros [|c r]; [repeat split|].
  rewrite prettyMethodName_cons. repeat split.
  cbn [substring substringFrom]. rewrite substring_0_0.
  cbn [toUpperCase mapString append withoutSpaces].
  now rewrite withoutSpaces_spaceBeforeRuns.
Qed.

Lemma toBlock_descriptionBlock (comment : option Comment) :
  toBlock comment = descriptionBlock comment.
Proof.
  destruct comment as [c|]; [|reflexivity].
  unfold toBlock, descriptionBlock; cbn [option_map orElse truthy].
  destruct (trim (shortText c)); destruct (text c); reflexivity.
Qed.

Section Records.
Context (X : Externals) (variant : Variant).

Lemma parametersLoop_lists (remaining : list ParameterReflection) :
  forall (index : nat) (st : LoopState),
    signatureParameters (parametersLoop X variant index remaining st)
    = (signatureParameters st ++ map signatureParameter remaining)%list
    /\ loopParameters (parametersLoop X variant index remaining st)
       = (loopParameters st
          ++ map (parameterRecord X variant) remaining)%list.
Proof.
  induction remaining as [|parameter rest IH]; intros index st; cbn.
  - now rewrite !app_nil_r.
  - destruct (IH (S index)
                {| signatureParameters :=
                     (signatureParameters st
                      ++ [signatureParameter parameter])%list;
                   requiresArgs :=
                     if (index =? 0)%nat then parameterRequired parameter
                     else requiresArgs st;
                   loopParameters :=
                     (loopParameters st
                      ++ [parameterRecord X variant parameter])%list |})
      as [Hs Hp].
    rewrite Hs, Hp; cbn. now rewrite <- !app_assoc.
Qed.

Lemma extractParameters_lists (signature : SignatureReflection) :
  signatureParameters (extractParameters X variant signature)
  = map signatureParameter (declared (parameters signature))
  /\ loopParameters (extractParameters X variant signature)
     = (map (typeParameterRecord X variant)
            (declared (typeParameters signature))
        ++ map (parameterRecord X variant)
               (declared (parameters signature)))%list.
Proof.
  unfold extractParameters, declared.
  destruct (parameters signature) as [l|]; cbn.
  - destruct (parametersLoop_lists l 0
                {| signatureParameters := [];
                   requiresArgs := false;
                   loopParameters :=
                     map (typeParameterRecord X variant)
                         match typeParameters signature with
                         | Some l0 => l0
                         | None => []
                         end |}) as [Hs Hp].
    now rewrite Hs, Hp.
  - now rewrite app_nil_r.
Qed.
End Records.


(** ** Claims on the example synthesizer *)

Lemma example_long (serialized : string) :
  50 < String.length serialized ->
  example serialized = substring 0 47 serialized ++ "..."
  /\ String.length (example serialized) = 50.
Proof.
  intros H. unfold example.
  destruct (Nat.ltb_spec 50 (String.length serialized)) as [_|H']; [|lia].
  split; [reflexivity|].
  rewrite length_append, length_substring_0 by lia. reflexivity.
Qed.

Lemma exampleCall_nonempty (lowerModuleName methodName example : string) :
  String.length example <> 0 ->
  exampleCall lowerModuleName methodName example
  = "faker." ++ lowerModuleName ++ "." ++ methodName ++ "() // => "
    ++ example ++ nl.
Proof.
  intros H. unfold exampleCall. destruct example as [|c r]; [now elim H|].
  reflexivity.
Qed.

(** C3: a serialization of more than 50 code units is stored as its first 47
    code units followed by [...], 50 code units in all, and a shorter one is
    stored as it is; this is the text the example line of the method shows
    after [// =>]. *)
Theorem example_truncated_to_fifty (serialized : string) :
  (50 < String.length serialized ->
     example serialized = substring 0 47 serialized ++ "..."
     /\ String.length (substring 0 47 serialized) = 47
     /\ String.length (example serialized) = 50)
  /\ (String.length serialized <= 50 -> example serialized = serialized)
  /\ (forall X variant lowerModuleName methodName signature,
        50 < String.length serialized ->
        requiresArgs (extractParameters X variant signature) = false ->
        serializedExample X lowerModuleName methodName = Some serialized ->
        completion
          (composeExamples X variant lowerModuleName methodName signature)
        = Normal
            ((signatureSummary X variant lowerModuleName methodName signature
              ++ nl)
             ++ ("faker." ++ lowerModuleName ++ "." ++ methodName
                 ++ "() // => " ++ (substring 0 47 serialized ++ "...") ++ nl)
             ++ exampleTagsText signature)).
Proof.
  split; [|split].
  - intros H. destruct (example_long serialized H) as [E L].
    repeat split; auto. apply length_substring_0; lia.
  - intros H. unfold example.
    destruct (Nat.ltb_spec 50 (String.length serialized)); [lia|reflexivity].
  - intros X variant lowerModuleName methodName signature H R S.
    destruct (example_long serialized H) as [E L].
    rewrite composeExamples_run. unfold completion, synthesizedCall; cbn [snd].
    rewrite R, S, exampleCall_nonempty by lia.
    now rewrite E.
Qed.


(** C9: without a reflection tree the run returns at once: it has no effect
    at all, so neither the JSON dump nor a page nor the manifest is written;
    with a reflection tree the JSON dump is the first effect. *)
Theorem no_output_without_reflection_tree
    (X : Externals) (variant : Variant) :
  build X variant None = ([], Normal tt)
  /\ main X variant None = ([], Normal tt)
  /\ writtenPaths (trace (main X variant None)) = []
  /\ (forall project,
        exists effects,
          trace (build X variant (Some project))
          = GenerateJson (pathOutputJson X) :: effects).
Proof.
  repeat split.
  intros project. unfold build. rewrite trace_bind.
  eexists. reflexivity.
Qed.

(** ** Runs of the whole pipeline *)

Lemma in_trace_bind {A B} (m : M A) (f : A -> M B) (e : Event) :
  In e (trace (bind m f)) ->
  In e (trace m) \/ exists a, completion m = Normal a /\ In e (trace (f a)).
Proof.
  rewrite trace_bind. intros H. apply in_app_or in H as [H|H]; [now left|].
  destruct (completion m) as [a|]; [|destruct H].
  right. exists a. auto.
Qed.

Lemma writtenPaths_app (t u : list Event) :
  writtenPaths (t ++ u) = (writtenPaths t ++ writtenPaths u)%list.
Proof. apply flat_map_app. Qed.

Lemma writtenPaths_flat_map {A} (f : A -> list Event) (l : list A) :
  writtenPaths (flat_map f l) = flat_map (fun a => writtenPaths (f a)) l.
Proof.
  induction l as [|a l IH]; [reflexivity|].
  cbn [flat_map]. now rewrite writtenPaths_app, IH.
Qed.

Lemma flat_map_ext_on {A B} (f g : A -> list B) (l : list A) :
  (forall a, In a l -> f a = g a) -> flat_map f l = flat_map g l.
Proof.
  induction l as [|a l IH]; intros H; [reflexivity|].
  cbn [flat_map]. rewrite (H a (or_introl eq_refl)), IH; [reflexivity|].
  intros b I. apply H. now right.
Qed.

Section Run.
Context (X : Externals) (variant : Variant).

Lemma processMethod_no_write (lowerModuleName : string)
    (method : MethodReflection) (e : Event) :
  In e (trace (processMethod X variant lowerModuleName method)) ->
  isWrite e = false.
Proof.
  destruct method as [methodName [|signature overloads]].
  - cbn. intros [<-|[]]. reflexivity.
  - rewrite processMethod_run. unfold trace; cbn [fst].
    destruct (requiresArgs (extractParameters X variant signature));
      cbn; intuition (subst; reflexivity).
Qed.

Lemma processMethods_run (lowerModuleName : string)
    (methods : list MethodReflection) :
  Forall (fun method => signatures method <> []) methods ->
  exists records,
    completion (mapM (processMethod X variant lowerModuleName) methods)
    = Normal records
    /\ map name records
       = map (fun method => prettyMethodName (methodDeclName method)) methods
    /\ writtenPaths
         (trace (mapM (processMethod X variant lowerModuleName) methods))
       = [].
Proof.
  induction 1 as [|method methods Hsig _ (records & Hc & Hn & Hw)].
  - exists []. repeat split.
  - destruct method as [methodName [|signature overloads]];
      [now elim Hsig|].
    cbn [mapM]. rewrite completion_bind, trace_bind, processMethod_run.
    cbn [completion trace fst snd].
    rewrite completion_bind, trace_bind.
    fold (completion (mapM (processMethod X variant lowerModuleName) methods)).
    rewrite Hc. eexists; split; [reflexivity|]. split.
    + cbn. now rewrite Hn.
    + fold (trace (mapM (processMethod X variant lowerModuleName) methods)).
      rewrite !writtenPaths_app, Hw.
      destruct (requiresArgs (extractParameters X variant signature));
        reflexivity.
Qed.

Lemma processModule_run (module : ModuleReflection) :
  Forall (fun method => signatures method <> []) (moduleMethods module) ->
  completion (processModule X variant module) = Normal (modulePage module)
  /\ writtenPaths (trace (processModule X variant module))
     = modulePaths X variant module.
Proof.
  intros H.
  destruct (processMethods_run (lowerModuleName (moduleName module))
              (moduleMethods module) H) as (records & Hc & _ & Hw).
  unfold processModule.
  rewrite completion_bind, trace_bind. cbn [emit completion trace fst snd].
  rewrite completion_bind, trace_bind.
  fold (completion (mapM (processMethod X variant
                            (lowerModuleName (moduleName module)))
                         (moduleMethods module))).
  fold (trace (mapM (processMethod X variant
                       (lowerModuleName (moduleName module)))
                    (moduleMethods module))).
  rewrite Hc. split.
  - destruct variant; reflexivity.
  - change (ConsoleLog ("Processing Module " ++ moduleName module) :: ?t)
      with ([ConsoleLog ("Processing Module " ++ moduleName module)] ++ t)%list.
    rewrite !writtenPaths_app, Hw.
    destruct variant; reflexivity.
Qed.

Lemma build_run (project : ProjectReflection)
    (modules : list ModuleReflection)
    (others : list (list ModuleReflection)) :
  namespaces project = modules :: others ->
  methodsHaveSignatures modules ->
  build X variant (Some project)
  = ((GenerateJson (pathOutputJson X)
      :: flat_map (fun module => trace (processModule X variant module))
                  modules)
     ++ [ ConsoleLog "Updating api-pages.mjs";
          WriteFileSync (pathDocsApiPages X)
            (format X Babel
               (apiPagesContent X
                  (sortPages X (fixedPages ++ map modulePage modules)))) ],
     Normal tt)%list.
Proof.
  intros N W.
  assert (Hc : forall module, In module modules ->
                 completion (processModule X variant module)
                 = Normal (modulePage module)).
  { intros module I. apply processModule_run.
    exact (proj1 (Forall_forall _ _) W module I). }
  pose proof (completion_mapM _ _ _ Hc) as Hpages.
  pose proof (trace_mapM _ _ _ Hc) as Htrace.
  unfold build. rewrite N.
  destruct (mapM (processModule X variant) modules) as [t c] eqn:E.
  unfold completion, trace in Hpages, Htrace; cbn [fst snd] in *.
  subst t c.
  unfold bind, emit, ret, writeFileSync; cbn [app].
  rewrite E. cbn [app]. reflexivity.
Qed.
End Run.


(** White space around the texts of the author's examples: what [trim] and
    [trimEnd] keep. *)

Lemma trimStart_head (s : string) :
  trimStart s = EmptyString
  \/ exists c r, trimStart s = String c r /\ isWhiteSpace c = false.
Proof.
  induction s as [|c r IH]; [now left|].
  cbn [trimStart]. destruct (isWhiteSpace c) eqn:W; [exact IH|].
  right. exists c, r. auto.
Qed.

Lemma trim_head (s : string) :
  trim s = EmptyString
  \/ exists c r, trim s = String c r /\ isWhiteSpace c = false.
Proof.
  unfold trim. destruct (trimStart_head s) as [->|(c & r & -> & W)];
    [now left|].
  right. cbn [trimEnd]. rewrite W, andb_false_r.
  exists c, (trimEnd r). auto.
Qed.


















Lemma sample_methods_have_signatures :
  methodsHaveSignatures [sampleAddress; sampleDate].
Proof.
  repeat constructor; discriminate.
Defined.


(** ** Claims on the written files *)

Lemma includes_app_r (needle a b : string) :
  includes needle b -> includes needle (a ++ b).
Proof.
  intros (before & rest & ->). exists (a ++ before), rest.
  now rewrite append_assoc.
Qed.




Section Banner.
Context (X : Externals) (variant : Variant).



Lemma apiPagesContent_eq (modulesPages : list Page) :
  apiPagesContent X modulesPages
  = nl ++ "// This file is automatically generated." ++ nl
    ++ "    // Run '" ++ scriptCommand ++ "' to update" ++ nl
    ++ "    export const apiPages = " ++ stringifyPages X modulesPages
    ++ ";" ++ nl ++ "    ".
Proof. reflexivity. Qed.
End Banner.

Section Writes.
Context (X : Externals) (variant : Variant).


End Writes.








(** ** Claims on the manifest *)

Section SortProperties.
Context {A : Type} (compareFn : A -> A -> Z).

Hypothesis total :
  forall a b, sortsBefore compareFn a b \/ sortsBefore compareFn b a.

Lemma insertSorted_permutation (x : A) (l : list A) :
  Permutation (x :: l) (insertSorted compareFn x l).
Proof.
  induction l as [|y l IH]; cbn; [apply Permutation_refl|].
  destruct (compareFn x y <=? 0)%Z; [apply Permutation_refl|].
  eapply perm_trans; [apply perm_swap|]. now apply perm_skip.
Qed.

Lemma sort_permutation (l : list A) : Permutation l (sort compareFn l).
Proof.
  induction l as [|x l IH]; cbn; [constructor|].
  eapply perm_trans; [apply perm_skip, IH|].
  apply insertSorted_permutation.
Qed.

Lemma insertSorted_hd (x y : A) (l : list A) :
  sortsBefore compareFn y x ->
  HdRel (sortsBefore compareFn) y l ->
  HdRel (sortsBefore compareFn) y (insertSorted compareFn x l).
Proof.
  intros Hyx H. destruct l as [|z l]; cbn; [now constructor|].
  destruct (compareFn x z <=? 0)%Z; constructor; auto.
  now inversion H.
Qed.

Lemma insertSorted_sorted (x : A) (l : list A) :
  Sorted (sortsBefore compareFn) l ->
  Sorted (sortsBefore compareFn) (insertSorted compareFn x l).
Proof.
  induction 1 as [|y l S IH H]; cbn; [repeat constructor|].
  destruct (Z.leb_spec (compareFn x y) 0) as [L|G].
  - constructor; [now constructor|]. now constructor.
  - constructor; [exact IH|].
    apply insertSorted_hd; [|exact H].
    destruct (total x y) as [T|T]; [unfold sortsBefore in T; lia|exact T].
Qed.

Lemma sort_sorted (l : list A) :
  Sorted (sortsBefore compareFn) (sort compareFn l).
Proof.
  induction l as [|x l IH]; cbn; [constructor|].
  now apply insertSorted_sorted.
Qed.
End SortProperties.

Lemma string_compare_le_trans (a : string) :
  forall b c,
    String.compare a b <> Gt -> String.compare b c <> Gt ->
    String.compare a c <> Gt.
Proof.
  induction a as [|x a IH]; intros [|y b] [|z c]; cbn; try congruence.
  unfold Ascii.compare.
  destruct (N.compare_spec (N_of_ascii x) (N_of_ascii y)) as [E1|L1|G1];
    destruct (N.compare_spec (N_of_ascii y) (N_of_ascii z)) as [E2|L2|G2];
    destruct (N.compare_spec (N_of_ascii x) (N_of_ascii z)) as [E3|L3|G3];
    try congruence; try lia.
  apply IH.
Qed.

Lemma sampleCompare_total (a b : string) :
  (sampleCompare a b <= 0 \/ sampleCompare b a <= 0)%Z.
Proof.
  unfold sampleCompare. rewrite (String.compare_antisym a b).
  destruct (String.compare b a); cbn; lia.
Qed.

Lemma sampleCompare_trans (a b c : string) :
  (sampleCompare a b <= 0 -> sampleCompare b c <= 0 -> sampleCompare a c <= 0)%Z.
Proof.
  unfold sampleCompare. intros H1 H2.
  pose proof (string_compare_le_trans a b c) as T.
  destruct (String.compare a b); destruct (String.compare b c);
    destruct (String.compare a c); try lia;
    exfalso; apply T; congruence.
Qed.

(** C8: the list serialized into the manifest is the two fixed entries and
    one entry per module, sorted by title under the comparison of the
    locale: it is written by the run, it is sorted, it has the collected
    entries and no others; and the fixed entries are its first two only when
    no title of a module sorts before them.  The comparison is assumed
    consistent: total and transitive. *)
Theorem manifest_sorted_by_title
    (X : Externals) (variant : Variant) (project : ProjectReflection)
    (modules : list ModuleReflection) (others : list (list ModuleReflection)) :
  (forall a b, (localeCompare X a b <= 0 \/ localeCompare X b a <= 0)%Z) ->
  (forall a b c, (localeCompare X a b <= 0)%Z -> (localeCompare X b c <= 0)%Z ->
                 (localeCompare X a c <= 0)%Z) ->
  namespaces project = modules :: others ->
  methodsHaveSignatures modules ->
  let collected := (fixedPages ++ map modulePage modules)%list in
  let written := sortPages X collected in
  let before := fun a b : Page =>
                  (localeCompare X (pageText a) (pageText b) <= 0)%Z in
  In (WriteFileSync (pathDocsApiPages X)
        (format X Babel (apiPagesContent X written)))
     (trace (build X variant (Some project)))
  /\ includes (stringifyPages X written) (apiPagesContent X written)
  /\ Sorted before written
  /\ Permutation collected written
  /\ (forall rest,
        written = (fixedPages ++ rest)%list ->
        Forall (fun module =>
                  (localeCompare X "Fake" (moduleName module) <= 0)%Z
                  /\ (localeCompare X "Localization" (moduleName module) <= 0)%Z)
               modules).
Proof.
  intros total trans N W collected written before.
  assert (S : Sorted before written).
  { apply (sort_sorted (fun a b => localeCompare X (pageText a) (pageText b))).
    intros a b. apply total. }
  assert (P : Permutation collected written)
    by apply sort_permutation.
  split; [|split; [|split; [exact S|split; [exact P|]]]].
  - rewrite (build_run X variant project modules others N W).
    unfold trace; cbn [fst]. apply in_or_app. right. right. left. reflexivity.
  - rewrite apiPagesContent_eq.
    apply (includes_app_r _ nl).
    apply (includes_app_r _ "// This file is automatically generated.").
    apply (includes_app_r _ nl).
    exists ("    // Run 'pnpm run generate:api-docs' to update" ++ nl
            ++ "    export const apiPages = ").
    eexists. reflexivity.
  - intros rest E.
    assert (SS : StronglySorted before written).
    { apply Sorted_StronglySorted; [|exact S].
      intros a b c. apply trans. }
    rewrite E in SS, P. cbn [fixedPages app] in SS.
    apply StronglySorted_inv in SS as [SS F1].
    apply StronglySorted_inv in SS as [_ F2].
    apply Forall_inv_tail in F1.
    apply Permutation_app_inv_l in P.
    apply Forall_forall. intros module I.
    assert (Ir : In (modulePage module) rest).
    { apply (Permutation_in _ P). now apply in_map. }
    split.
    + exact (proj1 (Forall_forall _ _) F1 _ Ir).
    + exact (proj1 (Forall_forall _ _) F2 _ Ir).
Qed.

Lemma manifest_sorted_witness :
  map pageText
      (sortPages sampleExternals
         (fixedPages ++ map modulePage [sampleAddress; sampleDate])%list)
  = ["Address"; "Date"; "Fake"; "Localization"]
  /\ Sorted (fun a b => (sampleCompare (pageText a) (pageText b) <= 0)%Z)
            (sortPages sampleExternals
               (fixedPages ++ map modulePage [sampleAddress; sampleDate])%list).
Proof.
  split; [reflexivity|].
  exact (proj1 (proj2 (proj2
           (manifest_sorted_by_title sampleExternals Inline sampleProject
              [sampleAddress; sampleDate] []
              sampleCompare_total sampleCompare_trans eq_refl
              sample_methods_have_signatures)))).
Defined.

(** * Further properties of the script *)

(** ** [escapeHtml] and [parameterRow] *)

Lemma replace_literal (code : nat) (replacement : string) (s : string) :
  replace (literal code) (fun _ => replacement) true s
  = substituteChar code replacement s.
Proof.
  unfold replace. induction s as [|c r IH]; [reflexivity|].
  cbn [replaceScan substituteChar literal].
  destruct (nat_of_ascii c =? code)%nat; now rewrite IH.
Qed.

Lemma substituteChar_app (code : nat) (replacement a b : string) :
  substituteChar code replacement (a ++ b)
  = substituteChar code replacement a ++ substituteChar code replacement b.
Proof.
  induction a as [|c r IH]; [reflexivity|].
  cbn [append substituteChar]. now rewrite IH, append_assoc.
Qed.

Lemma escapeHtml_char (c : ascii) :
  escapeHtml (String c EmptyString) = escapeChar c.
Proof.
  destruct c as [[] [] [] [] [] [] [] []]; reflexivity.
Qed.

Lemma escapeHtml_app (a b : string) :
  escapeHtml (a ++ b) = escapeHtml a ++ escapeHtml b.
Proof.
  unfold escapeHtml. rewrite !replace_literal.
  now rewrite !substituteChar_app.
Qed.

Lemma escapeHtml_escapeChars (s : string) : escapeHtml s = escapeChars s.
Proof.
  induction s as [|c r IH]; [reflexivity|].
  change (String c r) with (String c EmptyString ++ r).
  rewrite escapeHtml_app, escapeHtml_char, IH. reflexivity.
Qed.

(** X1: the five replacements in a row amount to one pass that replaces
    every code unit by its entity: an ampersand written by a later
    replacement is never escaped again; hence escaping distributes over
    concatenation. *)
Theorem escapeHtml_is_one_pass :
  forall a b : string,
    escapeHtml a = escapeChars a
    /\ escapeHtml (a ++ b) = escapeHtml a ++ escapeHtml b.
Proof.
  intros a b. split; [apply escapeHtml_escapeChars | apply escapeHtml_app].
Qed.

Lemma existsChar_app (p : ascii -> bool) (a b : string) :
  existsChar p (a ++ b) = existsChar p a || existsChar p b.
Proof.
  induction a as [|c r IH]; [reflexivity|].
  cbn [append existsChar]. now rewrite IH, orb_assoc.
Qed.

Lemma escapeChar_markup_free (c : ascii) :
  existsChar (fun d => isHtmlSpecial d && negb (nat_of_ascii d =? 38)%nat)
             (escapeChar c) = false.
Proof.
  destruct c as [[] [] [] [] [] [] [] []]; reflexivity.
Qed.

(** X2: the result of [escapeHtml] holds no [<], no [>], no double and no
    single quote, whatever the input. *)
Theorem escapeHtml_leaves_no_markup :
  forall unsafe : string,
    existsChar (fun c => isHtmlSpecial c && negb (nat_of_ascii c =? 38)%nat)
               (escapeHtml unsafe) = false.
Proof.
  intros unsafe. rewrite escapeHtml_escapeChars.
  induction unsafe as [|c r IH]; [reflexivity|].
  cbn [escapeChars]. now rewrite existsChar_app, escapeChar_markup_free, IH.
Qed.

Lemma escapeChar_length (c : ascii) :
  (if isHtmlSpecial c then 4 <= String.length (escapeChar c)
   else escapeChar c = String c EmptyString).
Proof.
  destruct c as [[] [] [] [] [] [] [] []]; vm_compute;
    try reflexivity; repeat constructor.
Qed.

Lemma escapeChars_length (s : string) :
  String.length s <= String.length (escapeChars s)
  /\ (existsChar isHtmlSpecial s = true ->
      String.length s < String.length (escapeChars s)).
Proof.
  induction s as [|c r [IH1 IH2]]; [split; [reflexivity|discriminate]|].
  cbn [escapeChars existsChar String.length]. rewrite length_append.
  pose proof (escapeChar_length c) as L.
  destruct (isHtmlSpecial c); cbn [orb].
  - split; [lia|intros _; lia].
  - rewrite L. cbn [String.length]. split; [lia|].
    intros H. specialize (IH2 H). lia.
Qed.

(** X3: [escapeHtml] leaves a text unchanged exactly when the text has none
    of the five characters; otherwise the result is longer. *)
Theorem escapeHtml_fixed_points :
  forall unsafe : string,
    (escapeHtml unsafe = unsafe <-> existsChar isHtmlSpecial unsafe = false)
    /\ String.length unsafe <= String.length (escapeHtml unsafe).
Proof.
  intros unsafe. rewrite escapeHtml_escapeChars.
  destruct (escapeChars_length unsafe) as [L1 L2].
  split; [split|exact L1].
  - intros E. destruct (existsChar isHtmlSpecial unsafe); [|reflexivity].
    specialize (L2 eq_refl). rewrite E in L2. lia.
  - clear L1 L2. induction unsafe as [|c r IH]; [reflexivity|].
    cbn [existsChar escapeChars]. intros H.
    apply orb_false_iff in H as [Hc Hr].
    pose proof (escapeChar_length c) as L. rewrite Hc in L.
    now rewrite L, IH.
Qed.

Lemma nat_of_ascii_injective (c d : ascii) :
  nat_of_ascii c = nat_of_ascii d -> c = d.
Proof.
  intros H. rewrite <- (ascii_nat_embedding c), <- (ascii_nat_embedding d).
  now rewrite H.
Qed.

Lemma escapeChar_injective (c d : ascii) (x y : string) :
  escapeChar c ++ x = escapeChar d ++ y -> c = d /\ x = y.
Proof.
  unfold escapeChar.
  repeat match goal with
         | |- context [ (nat_of_ascii ?a =? ?n)%nat ] =>
             destruct (Nat.eqb_spec (nat_of_ascii a) n)
         end;
    cbn [append]; intros H; injection H as; subst;
    try discriminate;
    try (split; [apply nat_of_ascii_injective; congruence | congruence]);
    try (exfalso;
         match goal with
         | n : nat_of_ascii _ <> _ |- _ => apply n; reflexivity
         end).
Qed.

(** X4: [escapeHtml] loses nothing: two texts with the same escaped form
    are the same text. *)
Theorem escapeHtml_injective :
  forall a b : string, escapeHtml a = escapeHtml b <-> a = b.
Proof.
  intros a b. split; [|now intros ->].
  rewrite !escapeHtml_escapeChars. revert b.
  induction a as [|c r IH]; intros [|d t]; cbn [escapeChars]; intros H.
  - reflexivity.
  - exfalso. pose proof (f_equal String.length H) as L.
    rewrite length_append in L. cbn [String.length] in L.
    pose proof (escapeChar_length d) as Ld.
    destruct (isHtmlSpecial d); [lia|].
    rewrite Ld in L. cbn in L. lia.
  - exfalso. pose proof (f_equal String.length H) as L.
    rewrite length_append in L. cbn [String.length] in L.
    pose proof (escapeChar_length c) as Lc.
    destruct (isHtmlSpecial c); [lia|].
    rewrite Lc in L. cbn in L. lia.
  - apply escapeChar_injective in H as [-> H]. now rewrite (IH t H).
Qed.

(** Equations between chains of concatenations that differ in their
    bracketing only. *)
Ltac chain_equal :=
  cbn [append nl];
  repeat first
    [ reflexivity
    | match goal with
      | |- String ?c _ = String ?c _ => f_equal
      | |- ?a ++ _ = ?a ++ _ => f_equal
      end
    | rewrite append_assoc; cbn [append nl] ].

(** X5: [parameterRow] throws when the type is undefined, whatever the other
    arguments; with a type it returns a row with the escaped name and type
    and the description block, and an empty default is shown like an absent
    one. *)
Theorem parameterRow_needs_a_type :
  forall (name : string) (def : option string) (comment : option Comment),
    (exists error, parameterRow name None def comment = Throw error)
    /\ (forall type,
          exists row,
            parameterRow name (Some type) def comment = Normal row
            /\ includes ("<td>" ++ escapeHtml name ++ "</td>") row
            /\ includes ("<td>" ++ escapeHtml type ++ "</td>") row
            /\ includes (nl ++ descriptionBlock comment ++ nl) row)
    /\ (forall type,
          parameterRow name type (Some EmptyString) comment
          = parameterRow name type None comment).
Proof.
  intros name def comment. split; [eexists; reflexivity|]. split.
  - intros type. unfold parameterRow. eexists. split; [reflexivity|].
    rewrite toBlock_descriptionBlock. split; [|split].
    + exists ("<tr>" ++ nl ++ "  "). eexists. chain_equal.
    + exists ("<tr>" ++ nl ++ "  <td>" ++ escapeHtml name ++ "</td>" ++ nl
              ++ "  ").
      eexists. chain_equal.
    + exists ("<tr>" ++ nl ++ "  <td>" ++ escapeHtml name ++ "</td>" ++ nl
              ++ "  <td>" ++ escapeHtml type ++ "</td>" ++ nl
              ++ "  <td>"
              ++ (if truthy def
                  then "<code>" ++ match def with
                                   | Some d => d
                                   | None => EmptyString
                                   end ++ "</code>"
                  else EmptyString)
              ++ "</td>" ++ nl ++ "  <td>" ++ nl ++ nl ++ "::: v-pre" ++ nl).
      eexists. chain_equal.
  - intros [type|]; reflexivity.
Qed.

(** ** Names *)

Lemma replace_first_underscore (a b : string) :
  existsChar isUnderscore a = false ->
  replace underscore (fun _ => EmptyString) false (a ++ "_" ++ b) = a ++ b.
Proof.
  unfold replace. induction a as [|c r IH]; intros H.
  - reflexivity.
  - cbn [existsChar] in H. apply orb_false_iff in H as [Hc Hr].
    cbn [append replaceScan underscore].
    unfold isUnderscore in Hc. rewrite Hc. f_equal. exact (IH Hr).
Qed.

Lemma replace_no_underscore (s : string) :
  existsChar isUnderscore s = false ->
  replace underscore (fun _ => EmptyString) false s = s.
Proof.
  unfold replace. induction s as [|c r IH]; intros H; [reflexivity|].
  cbn [existsChar] in H. apply orb_false_iff in H as [Hc Hr].
  cbn [replaceScan underscore].
  unfold isUnderscore in Hc. rewrite Hc. f_equal. exact (IH Hr).
Qed.

(** X6: the module identifier is the declared name without its first
    underscore: a name without underscore is kept, and of a name with
    several only the first goes. *)
Theorem moduleName_drops_first_underscore :
  forall (module : ModuleReflection) (a b : string),
    (existsChar isUnderscore (moduleDeclName module) = false ->
     moduleName module = moduleDeclName module)
    /\ (existsChar isUnderscore a = false ->
        moduleDeclName module = a ++ "_" ++ b ->
        moduleName module = a ++ b).
Proof.
  intros module a b. unfold moduleName. split.
  - apply replace_no_underscore.
  - intros H ->. now apply replace_first_underscore.
Qed.

Lemma moduleName_witness :
  moduleName {| moduleDeclName := "_Date_Time"; moduleComment := None;
                moduleMethods := [] |}
  = "Date_Time".
Proof.
  apply (proj2 (moduleName_drops_first_underscore
                  {| moduleDeclName := "_Date_Time"; moduleComment := None;
                     moduleMethods := [] |} "" "Date_Time"));
    reflexivity.
Defined.

Lemma toLowerCaseChar_idempotent (c : ascii) :
  toLowerCaseChar (toLowerCaseChar c) = toLowerCaseChar c.
Proof.
  destruct c as [[] [] [] [] [] [] [] []]; reflexivity.
Qed.

Lemma toLowerCaseChar_not_upper (c : ascii) :
  isUpper (toLowerCaseChar c) = false.
Proof.
  destruct c as [[] [] [] [] [] [] [] []]; reflexivity.
Qed.

Lemma toLowerCaseChar_ascii (c : ascii) :
  (nat_of_ascii c <? 128)%nat = true ->
  (nat_of_ascii (toLowerCaseChar c) <? 128)%nat = true.
Proof.
  destruct c as [[] [] [] [] [] [] [] []]; intros H;
    first [reflexivity | discriminate H].
Qed.

(** X7: for a module identifier that starts with an ASCII character, the
    lower-casing of its first character keeps the length and every
    character after the first, leaves an identifier that starts with an
    ASCII character that is no upper-case letter, and changes nothing when
    done again. *)
Theorem lowerModuleName_changes_first_character_only :
  forall moduleName : string,
    startsWithAscii moduleName = true ->
    String.length (lowerModuleName moduleName) = String.length moduleName
    /\ substringFrom 1 (lowerModuleName moduleName)
       = substringFrom 1 moduleName
    /\ startsWithAscii (lowerModuleName moduleName) = true
    /\ existsChar isUpper (substring 0 1 (lowerModuleName moduleName)) = false
    /\ lowerModuleName (lowerModuleName moduleName)
       = lowerModuleName moduleName.
Proof.
  intros [|c r] A; [repeat split|].
  unfold lowerModuleName. cbn [substring substringFrom].
  rewrite !substring_0_0.
  unfold toLowerCase. cbn [mapString append substring substringFrom
                           String.length startsWithAscii].
  rewrite substring_0_0. cbn [mapString append existsChar].
  rewrite toLowerCaseChar_idempotent, toLowerCaseChar_not_upper.
  repeat split. exact (toLowerCaseChar_ascii c A).
Qed.

Lemma lowerModuleName_witness :
  String.length (lowerModuleName "Address") = 7
  /\ substringFrom 1 (lowerModuleName "Address") = "ddress"
  /\ startsWithAscii (lowerModuleName "Address") = true
  /\ existsChar isUpper (substring 0 1 (lowerModuleName "Address")) = false
  /\ lowerModuleName (lowerModuleName "Address") = lowerModuleName "Address".
Proof.
  apply (lowerModuleName_changes_first_character_only "Address").
  reflexivity.
Defined.

Lemma length_spaceBeforeRuns (s : string) :
  forall inRun,
    String.length (spaceBeforeRuns inRun s)
    = String.length s + countUpperRuns inRun s.
Proof.
  induction s as [|c r IH]; intros inRun; [reflexivity|].
  cbn [spaceBeforeRuns countUpperRuns].
  destruct (isUpper c); [destruct inRun|]; cbn [String.length];
    rewrite IH; lia.
Qed.

(** X10: for a method name that starts with an ASCII character, the
    displayed name is longer than the method name by exactly the number of
    runs of upper-case letters after the first character. *)
Theorem prettyMethodName_length :
  forall methodName : string,
    startsWithAscii methodName = true ->
    String.length (prettyMethodName methodName)
    = String.length methodName
      + countUpperRuns false (substringFrom 1 methodName).
Proof.
  intros [|c r] _; [reflexivity|].
  rewrite prettyMethodName_cons. cbn [String.length substringFrom].
  now rewrite length_spaceBeforeRuns.
Qed.

Lemma prettyMethodName_length_witness :
  String.length (prettyMethodName "randomBankAccount") = 17 + 2.
Proof.
  apply (prettyMethodName_length "randomBankAccount"). reflexivity.
Defined.

(** ** Descriptions and examples *)

(** X8: a description block is never empty and never starts with white
    space, whatever the comment. *)
Theorem toBlock_starts_with_text :
  forall comment : option Comment,
    exists c rest,
      toBlock comment = String c rest /\ isWhiteSpace c = false.
Proof.
  intros comment. rewrite toBlock_descriptionBlock.
  destruct comment as [comment|]; cbn [descriptionBlock].
  - destruct (trim_head (shortText comment)) as [->|(c & r & -> & W)].
    + cbn. eexists; eexists. split; reflexivity.
    + cbn [isEmpty append]. exists c. eexists. split; [reflexivity|exact W].
  - eexists; eexists. split; reflexivity.
Qed.

(** X9: the stored example text never has more than 50 code units, and
    truncating it again changes nothing. *)
Theorem example_bounded_and_idempotent :
  forall serialized : string,
    String.length (example serialized) <= 50
    /\ example (example serialized) = example serialized.
Proof.
  intros serialized.
  destruct (Nat.ltb_spec 50 (String.length serialized)) as [L|L].
  - destruct (example_long serialized L) as [_ E]. split; [lia|].
    unfold example at 1.
    destruct (Nat.ltb_spec 50 (String.length (example serialized)));
      [lia|reflexivity].
  - assert (E : example serialized = serialized).
    { unfold example.
      destruct (Nat.ltb_spec 50 (String.length serialized));
        [lia|reflexivity]. }
    rewrite !E. split; [lia|reflexivity].
Qed.

(** X11: the parameter records of a method are those of its type
    parameters followed by those of its parameters, in declaration order;
    they carry the declared names without the marker of the signature text,
    and the declared default value. *)
Theorem parameter_records_in_declaration_order :
  forall (X : Externals) (variant : Variant) (signature : SignatureReflection),
    let records := loopParameters (extractParameters X variant signature) in
    map mpName records
    = (map tpName (declared (typeParameters signature))
       ++ map pName (declared (parameters signature)))%list
    /\ map mpDefault records
       = (map (fun _ => None) (declared (typeParameters signature))
          ++ map defaultValue (declared (parameters signature)))%list
    /\ List.length records
       = List.length (declared (typeParameters signature))
         + List.length (declared (parameters signature)).
Proof.
  intros X variant signature records. subst records.
  rewrite (proj2 (extractParameters_lists X variant signature)).
  rewrite !map_app, !map_map, length_app, !length_map.
  repeat split.
Qed.

Lemma extractParameters_comment (X : Externals) (variant : Variant)
    (signature : SignatureReflection) (comment : option Comment) :
  extractParameters X variant
    {| typeParameters := typeParameters signature;
       parameters := parameters signature;
       sigType := sigType signature;
       sigComment := comment |}
  = extractParameters X variant signature.
Proof. reflexivity. Qed.

(** X12: tags other than [example] never reach the documentation of a
    method: removing one from the comment of the signature leaves the
    effects and the record of the method as they are. *)
Theorem other_tags_are_ignored :
  forall (X : Externals) (variant : Variant)
         (lowerModuleName methodName : string)
         (signature : SignatureReflection)
         (overloads : list SignatureReflection)
         (comment : Comment) (before after : list CommentTag)
         (tag : CommentTag),
    (tagName tag =? "example")%string = false ->
    sigComment signature = Some comment ->
    tags comment = (before ++ tag :: after)%list ->
    processMethod X variant lowerModuleName
      {| methodDeclName := methodName; signatures := signature :: overloads |}
    = processMethod X variant lowerModuleName
        {| methodDeclName := methodName;
           signatures :=
             {| typeParameters := typeParameters signature;
                parameters := parameters signature;
                sigType := sigType signature;
                sigComment :=
                  Some {| shortText := shortText comment;
                          text := text comment;
                          tags := (before ++ after)%list |} |}
             :: overloads |}.
Proof.
  intros X variant lowerModuleName methodName signature overloads comment
         before after tag T C G.
  rewrite !processMethod_run.
  unfold synthesizedCall, signatureSummary, signatureTypeParametersString.
  rewrite !extractParameters_comment.
  cbn [typeParameters parameters sigType sigComment].
  assert (E : exampleTagsText
                {| typeParameters := typeParameters signature;
                   parameters := parameters signature;
                   sigType := sigType signature;
                   sigComment :=
                     Some {| shortText := shortText comment;
                             text := text comment;
                             tags := (before ++ after)%list |} |}
              = exampleTagsText signature).
  { unfold exampleTagsText, exampleTags.
    cbn [sigComment tags]. rewrite C, G.
    rewrite !filter_app. cbn [filter]. now rewrite T. }
  rewrite E, C. reflexivity.
Qed.

Lemma other_tags_witness :
  processMethod sampleExternals Inline "address"
    {| methodDeclName := "city";
       signatures :=
         [ {| typeParameters := None; parameters := None;
              sigType := "string";
              sigComment :=
                Some {| shortText := "A city.";
                        text := "";
                        tags := [ {| tagName := "see";
                                     tagText := "faker.address.cityName" |};
                                  {| tagName := "example";
                                     tagText := "faker.address.city()" |} ] |}
           |} ] |}
  = processMethod sampleExternals Inline "address"
      {| methodDeclName := "city";
         signatures :=
           [ {| typeParameters := None; parameters := None;
                sigType := "string";
                sigComment :=
                  Some {| shortText := "A city.";
                          text := "";
                          tags := [ {| tagName := "example";
                                       tagText := "faker.address.city()" |} ]
                       |} |} ] |}.
Proof.
  apply (other_tags_are_ignored sampleExternals Inline "address" "city"
           {| typeParameters := None; parameters := None;
              sigType := "string";
              sigComment :=
                Some {| shortText := "A city.";
                        text := "";
                        tags := [ {| tagName := "see";
                                     tagText := "faker.address.cityName" |};
                                  {| tagName := "example";
                                     tagText := "faker.address.city()" |} ] |}
           |}
           []
           {| shortText := "A city.";
              text := "";
              tags := [ {| tagName := "see";
                           tagText := "faker.address.cityName" |};
                        {| tagName := "example";
                           tagText := "faker.address.city()" |} ] |}
           []
           [ {| tagName := "example"; tagText := "faker.address.city()" |} ]
           {| tagName := "see"; tagText := "faker.address.cityName" |});
    reflexivity.
Defined.

(** X13: a method is documented by its first call signature alone, the
    other overloads have no effect; a method without call signature throws
    right after its debug line, before the generator is seeded. *)
Theorem only_the_first_signature_counts :
  forall (X : Externals) (variant : Variant)
         (lowerModuleName methodName : string)
         (signature : SignatureReflection)
         (overloads overloads' : list SignatureReflection),
    processMethod X variant lowerModuleName
      {| methodDeclName := methodName; signatures := signature :: overloads |}
    = processMethod X variant lowerModuleName
        {| methodDeclName := methodName;
           signatures := signature :: overloads' |}
    /\ exists error,
         processMethod X variant lowerModuleName
           {| methodDeclName := methodName; signatures := [] |}
         = ([ConsoleDebug ("- method " ++ prettyMethodName methodName)],
            Throw error).
Proof.
  intros. split.
  - now rewrite !processMethod_run.
  - eexists. reflexivity.
Qed.

(** ** The effects of a run *)

Lemma wellSeeded_weaken (t : list Event) (seeded : bool) :
  wellSeeded false t = true -> wellSeeded seeded t = true.
Proof.
  destruct t as [|e t]; [reflexivity|].
  destruct e; cbn; auto. discriminate.
Qed.

Lemma wellSeeded_app (t u : list Event) :
  forall seeded,
    wellSeeded seeded t = true -> wellSeeded false u = true ->
    wellSeeded seeded (t ++ u) = true.
Proof.
  induction t as [|e t IH]; intros seeded Ht Hu.
  - now apply wellSeeded_weaken.
  - destruct e; cbn in *; auto.
    apply andb_true_iff in Ht as [-> Ht]. cbn. auto.
Qed.

Lemma wellSeeded_bind {A B} (m : M A) (f : A -> M B) :
  wellSeeded false (trace m) = true ->
  (forall a, wellSeeded false (trace (f a)) = true) ->
  wellSeeded false (trace (bind m f)) = true.
Proof.
  intros Hm Hf. rewrite trace_bind. apply wellSeeded_app; [exact Hm|].
  destruct (completion m); [apply Hf|reflexivity].
Qed.

Lemma wellSeeded_mapM {A B} (f : A -> M B) (l : list A) :
  (forall a, wellSeeded false (trace (f a)) = true) ->
  wellSeeded false (trace (mapM f l)) = true.
Proof.
  intros Hf. induction l as [|a l IH]; [reflexivity|].
  cbn [mapM]. apply wellSeeded_bind; [apply Hf|]. intros b.
  apply wellSeeded_bind; [exact IH|]. intros bs. reflexivity.
Qed.

Lemma wellSeeded_processMethod (X : Externals) (variant : Variant)
    (lowerModuleName : string) (method : MethodReflection) :
  wellSeeded false (trace (processMethod X variant lowerModuleName method))
  = true.
Proof.
  destruct method as [methodName [|signature overloads]]; [reflexivity|].
  rewrite processMethod_run. unfold trace; cbn [fst].
  destruct (requiresArgs (extractParameters X variant signature));
    reflexivity.
Qed.

Lemma wellSeeded_processModule (X : Externals) (variant : Variant)
    (module : ModuleReflection) :
  wellSeeded false (trace (processModule X variant module)) = true.
Proof.
  unfold processModule.
  apply wellSeeded_bind; [reflexivity|]. intros _.
  apply wellSeeded_bind;
    [apply wellSeeded_mapM; intros method; apply wellSeeded_processMethod|].
  intros methods.
  apply wellSeeded_bind; [reflexivity|]. intros _.
  apply wellSeeded_bind; [destruct variant; reflexivity|]. intros _.
  reflexivity.
Qed.

(** X14: in every run, of any reflection tree and with any behaviour of the
    documented library, each invocation of a method comes directly after a
    re-seeding of the generator with 0; the run of the entry point has the
    same property. *)
Theorem every_invocation_is_seeded :
  forall (X : Externals) (variant : Variant)
         (project : option ProjectReflection),
    wellSeeded false (trace (build X variant project)) = true
    /\ wellSeeded false (trace (main X variant project)) = true.
Proof.
  intros X variant project.
  assert (B : wellSeeded false (trace (build X variant project)) = true).
  { destruct project as [project|]; [|reflexivity].
    unfold build.
    apply wellSeeded_bind; [reflexivity|]. intros _.
    apply wellSeeded_bind;
      [destruct (namespaces project); reflexivity|]. intros modules.
    apply wellSeeded_bind;
      [apply wellSeeded_mapM; intros module;
       apply wellSeeded_processModule|].
    intros pages.
    apply wellSeeded_bind; [reflexivity|]. intros _. reflexivity. }
  split; [exact B|].
  unfold main, tryCatch.
  destruct (build X variant project) as [t [[]|error]]; [exact B|].
  unfold trace in *; cbn [fst emit] in *.
  apply wellSeeded_app; [exact B|reflexivity].
Qed.

(** X17: the entry point never throws: the exception of a failed run is
    logged as the last effect, after the effects of the run, which are kept;
    a reflection tree without namespace makes the run throw right after the
    JSON dump. *)
Theorem main_logs_the_exception :
  forall (X : Externals) (variant : Variant)
         (project : option ProjectReflection),
    completion (main X variant project) = Normal tt
    /\ trace (main X variant project)
       = (trace (build X variant project)
          ++ match completion (build X variant project) with
             | Normal _ => []
             | Throw error => [ConsoleError error]
             end)%list
    /\ exists error,
         build X variant (Some {| namespaces := [] |})
         = ([GenerateJson (pathOutputJson X)], Throw error).
Proof.
  intros X variant project. unfold main, tryCatch, completion, trace.
  destruct (build X variant project) as [t [[]|error]]; cbn [fst snd emit].
  - rewrite app_nil_r. repeat split. eexists. reflexivity.
  - repeat split. eexists. reflexivity.
Qed.

Lemma invocations_app (t u : list Event) :
  attemptedInvocations (t ++ u)
  = (attemptedInvocations t ++ attemptedInvocations u)%list.
Proof. apply flat_map_app. Qed.

Lemma seeds_app (t u : list Event) :
  seeds (t ++ u) = (seeds t ++ seeds u)%list.
Proof. apply flat_map_app. Qed.

Lemma invocations_flat_map {A} (f : A -> list Event) (l : list A) :
  attemptedInvocations (flat_map f l)
  = flat_map (fun a => attemptedInvocations (f a)) l.
Proof.
  induction l as [|a l IH]; [reflexivity|].
  cbn [flat_map]. now rewrite invocations_app, IH.
Qed.

Lemma seeds_flat_map {A} (f : A -> list Event) (l : list A) :
  seeds (flat_map f l) = flat_map (fun a => seeds (f a)) l.
Proof.
  induction l as [|a l IH]; [reflexivity|].
  cbn [flat_map]. now rewrite seeds_app, IH.
Qed.

Section Invocations.
Context (X : Externals) (variant : Variant).

Lemma processMethods_trace (lowerModuleName : string)
    (methods : list MethodReflection) :
  Forall (fun method => signatures method <> []) methods ->
  trace (mapM (processMethod X variant lowerModuleName) methods)
  = flat_map (fun method =>
                trace (processMethod X variant lowerModuleName method))
             methods.
Proof.
  intros H.
  apply (trace_mapM _
           (fun method =>
              match completion
                      (processMethod X variant lowerModuleName method) with
              | Normal record => record
              | Throw _ =>
                  {| name := EmptyString; description := EmptyString;
                     methodParameters := []; returns := EmptyString;
                     examples := EmptyString |}
              end)).
  intros [methodName [|signature overloads]] I.
  - exfalso. exact (proj1 (Forall_forall _ _) H _ I eq_refl).
  - rewrite processMethod_run. reflexivity.
Qed.

Lemma seeds_processMethods (lowerModuleName : string)
    (methods : list MethodReflection) :
  Forall (fun method => signatures method <> []) methods ->
  flat_map (fun method =>
              seeds (trace (processMethod X variant lowerModuleName method)))
           methods
  = map (fun _ => 0%Z) methods.
Proof.
  induction 1 as [|[methodName [|signature overloads]] l Hs _ IH].
  - reflexivity.
  - now elim Hs.
  - cbn [flat_map map]. rewrite IH, processMethod_run.
    unfold trace; cbn [fst].
    destruct (requiresArgs (extractParameters X variant signature));
      reflexivity.
Qed.

Lemma processModule_invocations (module : ModuleReflection) :
  Forall (fun method => signatures method <> []) (moduleMethods module) ->
  attemptedInvocations (trace (processModule X variant module))
  = zeroArgumentMethods X variant module
  /\ seeds (trace (processModule X variant module))
     = map (fun _ => 0%Z) (moduleMethods module).
Proof.
  intros H.
  destruct (processMethods_run X variant
              (lowerModuleName (moduleName module)) (moduleMethods module) H)
    as (records & Hc & _ & _).
  unfold processModule.
  rewrite trace_bind. cbn [emit completion trace fst snd].
  rewrite trace_bind.
  fold (completion (mapM (processMethod X variant
                            (lowerModuleName (moduleName module)))
                         (moduleMethods module))).
  fold (trace (mapM (processMethod X variant
                       (lowerModuleName (moduleName module)))
                    (moduleMethods module))).
  rewrite Hc, (processMethods_trace _ _ H).
  change (ConsoleLog ("Processing Module " ++ moduleName module) :: ?t)
    with ([ConsoleLog ("Processing Module " ++ moduleName module)] ++ t)%list.
  rewrite !invocations_app, !seeds_app, invocations_flat_map, seeds_flat_map.
  match goal with
  | |- context [ trace (bind (writeFileSync ?p ?c) ?k) ] =>
      assert (Wi : attemptedInvocations
                     (trace (bind (writeFileSync p c) k)) = [])
        by (destruct variant; reflexivity);
      assert (Ws : seeds (trace (bind (writeFileSync p c) k)) = [])
        by (destruct variant; reflexivity);
      rewrite Wi, Ws
  end.
  cbn [attemptedInvocations seeds flat_map app].
  rewrite !app_nil_r. split.
  - unfold zeroArgumentMethods. apply flat_map_ext_on.
    intros [methodName [|signature overloads]] I.
    + exfalso. exact (proj1 (Forall_forall _ _) H _ I eq_refl).
    + rewrite processMethod_run. unfold trace; cbn [fst signatures methodDeclName].
      destruct (requiresArgs (extractParameters X variant signature));
        reflexivity.
  - now apply seeds_processMethods.
Qed.
End Invocations.

(** X15: on a reflection tree in which every method has a call signature,
    the run attempts the speculative invocation, entering the [try] block
    and evaluating [faker[module][method]()], for exactly the methods whose
    first signature has no parameter or a first parameter with a default
    value, once each, in the order of declaration, and it seeds the
    generator with 0 once for every method, attempted or not. *)
Theorem attempted_invocations_of_a_run :
  forall (X : Externals) (variant : Variant) (project : ProjectReflection)
         (modules : list ModuleReflection)
         (others : list (list ModuleReflection)),
    namespaces project = modules :: others ->
    methodsHaveSignatures modules ->
    attemptedInvocations (trace (build X variant (Some project)))
    = flat_map (zeroArgumentMethods X variant) modules
    /\ seeds (trace (build X variant (Some project)))
       = map (fun _ => 0%Z) (flat_map moduleMethods modules).
Proof.
  intros X variant project modules others N W.
  rewrite (build_run X variant project modules others N W).
  unfold trace; cbn [fst].
  change (GenerateJson (pathOutputJson X) :: ?t)
    with ([GenerateJson (pathOutputJson X)] ++ t)%list.
  rewrite !invocations_app, !seeds_app, invocations_flat_map, seeds_flat_map.
  cbn [attemptedInvocations seeds flat_map app]. rewrite !app_nil_r. split.
  - apply flat_map_ext_on. intros module I.
    apply processModule_invocations.
    exact (proj1 (Forall_forall _ _) W module I).
  - clear N. induction W as [|module modules Hm _ IH]; [reflexivity|].
    cbn [flat_map]. rewrite map_app, IH. f_equal.
    exact (proj2 (processModule_invocations X variant module Hm)).
Qed.

Lemma attempted_invocations_witness :
  attemptedInvocations
    (trace (build sampleExternals Inline (Some sampleProject)))
  = [ ("address", "zipCode"); ("address", "paragraph"); ("address", "boom") ]
  /\ seeds (trace (build sampleExternals Inline (Some sampleProject)))
     = [0%Z; 0%Z; 0%Z].
Proof.
  apply (attempted_invocations_of_a_run sampleExternals Inline sampleProject
           [sampleAddress; sampleDate] [] eq_refl
           sample_methods_have_signatures).
Defined.

(** ** A run that fails *)

Lemma mapM_throw {A B} (f : A -> M B) (g : A -> B) (done : list A) (a : A)
    (rest : list A) (error : string) :
  (forall x, In x done -> completion (f x) = Normal (g x)) ->
  completion (f a) = Throw error ->
  completion (mapM f (done ++ a :: rest)) = Throw error
  /\ trace (mapM f (done ++ a :: rest))
     = (flat_map (fun x => trace (f x)) done ++ trace (f a))%list.
Proof.
  intros Hd Ha. induction done as [|x done IH]; cbn [app mapM flat_map].
  - rewrite completion_bind, trace_bind, Ha. split; [reflexivity|].
    now rewrite app_nil_r.
  - destruct IH as [IHc IHt]; [intros y I; apply Hd; now right|].
    rewrite completion_bind, trace_bind, (Hd x (or_introl eq_refl)).
    rewrite completion_bind, trace_bind, IHc, IHt.
    split; [reflexivity|]. now rewrite app_nil_r, app_assoc.
Qed.

Lemma writtenPaths_none (t : list Event) :
  (forall e, In e t -> isWrite e = false) -> writtenPaths t = [].
Proof.
  induction t as [|e t IH]; intros H; [reflexivity|].
  cbn [writtenPaths flat_map].
  fold (writtenPaths t). rewrite IH by (intros x I; apply H; now right).
  specialize (H e (or_introl eq_refl)). destruct e; try reflexivity;
    discriminate.
Qed.

Section Failure.
Context (X : Externals) (variant : Variant).

Lemma processModule_throw (module : ModuleReflection)
    (done : list MethodReflection) (broken : MethodReflection)
    (later : list MethodReflection) :
  moduleMethods module = (done ++ broken :: later)%list ->
  Forall (fun method => signatures method <> []) done ->
  signatures broken = [] ->
  completion (processModule X variant module)
  = Throw "TypeError: Cannot read properties of undefined"
  /\ writtenPaths (trace (processModule X variant module)) = [].
Proof.
  intros E D B.
  assert (Hb : completion (processMethod X variant
                             (lowerModuleName (moduleName module)) broken)
               = Throw "TypeError: Cannot read properties of undefined").
  { destruct broken as [methodName sigs]. cbn in B. subst sigs. reflexivity. }
  assert (Hd : forall method, In method done ->
                 completion (processMethod X variant
                               (lowerModuleName (moduleName module)) method)
                 = Normal
                     match completion
                             (processMethod X variant
                                (lowerModuleName (moduleName module)) method)
                     with
                     | Normal record => record
                     | Throw _ =>
                         {| name := EmptyString; description := EmptyString;
                            methodParameters := []; returns := EmptyString;
                            examples := EmptyString |}
                     end).
  { intros [methodName [|signature overloads]] I.
    - exfalso. exact (proj1 (Forall_forall _ _) D _ I eq_refl).
    - rewrite processMethod_run. reflexivity. }
  destruct (mapM_throw _ _ done broken later _ Hd Hb) as [Hc _].
  split.
  - unfold processModule. rewrite completion_bind. cbn [emit completion snd].
    rewrite completion_bind, E.
    fold (completion (mapM (processMethod X variant
                              (lowerModuleName (moduleName module)))
                           (done ++ broken :: later)%list)).
    now rewrite Hc.
  - apply writtenPaths_none. intros e I. unfold processModule in I.
    apply in_trace_bind in I as [[<-|[]]|(_ & _ & I)]; [reflexivity|].
    apply in_trace_bind in I as [I|(methods & C & _)].
    + apply in_trace_mapM in I as (method & _ & I).
      now apply processMethod_no_write in I.
    + rewrite E in C.
      fold (completion (mapM (processMethod X variant
                                (lowerModuleName (moduleName module)))
                             (done ++ broken :: later)%list)) in Hc.
      rewrite Hc in C. discriminate.
Qed.
End Failure.

(** X16: a method without call signature makes the run throw a TypeError
    that the entry point logs: the JSON dump and the files of the modules
    before the one of that method stay written, the module itself, the
    modules after it and the manifest are not written. *)
Theorem run_aborts_at_a_method_without_signature :
  forall (X : Externals) (variant : Variant) (project : ProjectReflection)
         (good : list ModuleReflection) (bad : ModuleReflection)
         (rest : list ModuleReflection)
         (others : list (list ModuleReflection))
         (done : list MethodReflection) (broken : MethodReflection)
         (later : list MethodReflection),
    namespaces project = (good ++ bad :: rest)%list :: others ->
    methodsHaveSignatures good ->
    moduleMethods bad = (done ++ broken :: later)%list ->
    Forall (fun method => signatures method <> []) done ->
    signatures broken = [] ->
    completion (build X variant (Some project))
    = Throw "TypeError: Cannot read properties of undefined"
    /\ writtenPaths (trace (build X variant (Some project)))
       = pathOutputJson X :: flat_map (modulePaths X variant) good
    /\ main X variant (Some project)
       = ((trace (build X variant (Some project))
           ++ [ConsoleError "TypeError: Cannot read properties of undefined"])%list,
          Normal tt).
Proof.
  intros X variant project good bad rest others done broken later N G E D B.
  destruct (processModule_throw X variant bad done broken later E D B)
    as [Hb Hw].
  assert (Hg : forall module, In module good ->
                 completion (processModule X variant module)
                 = Normal (modulePage module)).
  { intros module I. apply processModule_run.
    exact (proj1 (Forall_forall _ _) G module I). }
  destruct (mapM_throw _ _ good bad rest _ Hg Hb) as [Hc Ht].
  assert (C : completion (build X variant (Some project))
              = Throw "TypeError: Cannot read properties of undefined").
  { unfold build. rewrite completion_bind. cbn [emit completion snd].
    rewrite N, completion_bind. cbn [ret completion snd].
    rewrite completion_bind.
    fold (completion (mapM (processModule X variant)
                           (good ++ bad :: rest)%list)).
    now rewrite Hc. }
  split; [exact C|]. split.
  - unfold build. rewrite trace_bind. cbn [emit completion trace fst snd].
    rewrite N, trace_bind. cbn [ret completion trace fst snd].
    rewrite trace_bind.
    fold (completion (mapM (processModule X variant)
                           (good ++ bad :: rest)%list)).
    fold (trace (mapM (processModule X variant) (good ++ bad :: rest)%list)).
    rewrite Hc, Ht. cbn [app]. rewrite app_nil_r.
    change (GenerateJson (pathOutputJson X) :: ?t)
      with ([GenerateJson (pathOutputJson X)] ++ t)%list.
    rewrite !writtenPaths_app, writtenPaths_flat_map, Hw, app_nil_r.
    cbn [writtenPaths flat_map app]. f_equal.
    apply flat_map_ext_on. intros module I. apply processModule_run.
    exact (proj1 (Forall_forall _ _) G module I).
  - unfold main, tryCatch. unfold completion in C.
    destruct (build X variant (Some project)) as [t c]. cbn [snd] in C.
    subst c. reflexivity.
Qed.

Lemma run_aborts_witness :
  completion (build sampleExternals DataFile (Some sampleBrokenProject))
  = Throw "TypeError: Cannot read properties of undefined"
  /\ writtenPaths
       (trace (build sampleExternals DataFile (Some sampleBrokenProject)))
     = [ "/repo/scripts/../docs/api/typedoc.json";
         "/repo/scripts/../docs/api/address.md";
         "/repo/scripts/../docs/api/address.ts" ].
Proof.
  assert (G : methodsHaveSignatures [sampleAddress])
    by (repeat constructor; discriminate).
  assert (D : Forall (fun method => signatures method <> [])
                     [sampleNoParameters "first"])
    by (repeat constructor; discriminate).
  destruct (run_aborts_at_a_method_without_signature
              sampleExternals DataFile sampleBrokenProject
              [sampleAddress] sampleBroken [sampleDate] []
              [sampleNoParameters "first"]
              {| methodDeclName := "second"; signatures := [] |}
              [sampleNoParameters "third"]
              eq_refl G eq_refl D eq_refl) as [C [W _]].
  split; [exact C|exact W].
Defined.

(** ** Indentation of the generated texts *)

Lemma isNewline_not_space (c : ascii) : isNewline c = true -> isSpace c = false.
Proof.
  unfold isNewline, isSpace. intros H. apply Nat.eqb_eq in H.
  apply Nat.eqb_neq. lia.
Qed.

Lemma startsWithSpace_span (s : string) :
  spanLength isSpace s = 0 -> startsWithSpace s = false.
Proof.
  destruct s as [|c r]; [reflexivity|]. cbn.
  destruct (isSpace c); [discriminate|reflexivity].
Qed.

Lemma hasIndentedLine_nl (s : string) :
  hasIndentedLine (nl ++ s) = startsWithSpace s || hasIndentedLine s.
Proof. reflexivity. Qed.

Lemma startsWithSpace_nl (s : string) : startsWithSpace (nl ++ s) = false.
Proof. reflexivity. Qed.

Lemma strip_no_indentation (s : string) :
  (hasIndentedLine (replaceScan newlineSpaces (fun _ => nl) true 0 s) = false
   /\ (startsWithSpace (replaceScan newlineSpaces (fun _ => nl) true 0 s)
       = true -> startsWithSpace s = true))
  /\ (hasIndentedLine
        (replaceScan newlineSpaces (fun _ => nl) true
           (spanLength isSpace s) s) = false
      /\ startsWithSpace
           (replaceScan newlineSpaces (fun _ => nl) true
              (spanLength isSpace s) s) = false).
Proof.
  induction s as [|c r [[I0 S0] [Is Ss]]]; [repeat split; discriminate|].
  assert (P0 : hasIndentedLine
                 (replaceScan newlineSpaces (fun _ => nl) true 0 (String c r))
               = false
               /\ (startsWithSpace
                     (replaceScan newlineSpaces (fun _ => nl) true 0
                        (String c r)) = true ->
                   startsWithSpace (String c r) = true)).
  { cbn [replaceScan].
    destruct (newlineSpaces (String c r)) as [[|k]|] eqn:M.
    - unfold newlineSpaces in M. destruct (isNewline c); [|discriminate].
      destruct (spanLength isSpace r); discriminate.
    - unfold newlineSpaces in M. destruct (isNewline c) eqn:N; [|discriminate].
      destruct (spanLength isSpace r) as [|n] eqn:E; [discriminate|].
      injection M as <-.
      rewrite hasIndentedLine_nl, startsWithSpace_nl, Is, Ss.
      split; [reflexivity|discriminate].
    - cbn [hasIndentedLine startsWithSpace]. rewrite I0, orb_false_r.
      split; [|auto].
      destruct (isNewline c) eqn:N; [|reflexivity]. cbn [andb].
      unfold newlineSpaces in M. rewrite N in M.
      destruct (spanLength isSpace r) as [|n] eqn:E; [|discriminate].
      destruct (startsWithSpace
                  (replaceScan newlineSpaces (fun _ => nl) true 0 r)) eqn:F;
        [|reflexivity].
      specialize (S0 eq_refl). rewrite (startsWithSpace_span r E) in S0.
      discriminate. }
  split; [exact P0|].
  cbn [spanLength]. destruct (isSpace c) eqn:W.
  - cbn [replaceScan]. auto.
  - destruct P0 as [P0 Q0]. split; [exact P0|].
    destruct (startsWithSpace
                (replaceScan newlineSpaces (fun _ => nl) true 0 (String c r)))
      eqn:F; [|reflexivity].
    specialize (Q0 eq_refl). cbn in Q0. congruence.
Qed.

Lemma apiPagesContent_indented (X : Externals) (modulesPages : list Page) :
  hasIndentedLine (apiPagesContent X modulesPages) = true.
Proof.
  rewrite apiPagesContent_eq. reflexivity.
Qed.

(** X18: the replacement of the indentation is global in the markdown page
    and not in the manifest: no line of the page handed to the formatter
    starts with a space, those of the embedded module comment included,
    while the manifest keeps the indentation of every line but its first. *)
Theorem page_lines_are_not_indented :
  forall (X : Externals) (variant : Variant) (module : ModuleReflection)
         (methods : list Method) (modulesPages : list Page),
    hasIndentedLine (content X variant module methods) = false
    /\ startsWithSpace (content X variant module methods) = false
    /\ hasIndentedLine (apiPagesContent X modulesPages) = true.
Proof.
  intros X variant module methods modulesPages. split; [|split].
  - apply strip_no_indentation.
  - unfold content, replace.
    match goal with
    | |- startsWithSpace (replaceScan _ _ _ _ ?s) = false =>
        destruct (startsWithSpace
                    (replaceScan newlineSpaces (fun _ => nl) true 0 s)) eqn:F;
        [apply (proj2 (proj1 (strip_no_indentation s))) in F; discriminate
        |reflexivity]
    end.
  - apply apiPagesContent_indented.
Qed.

(** ** When the example call is shown *)



